(** * comparator.ts: natural order and the fluent comparator builder

    A shallow embedding of [src/comparator.ts] (the guards [isComparable],
    [isComparator] and [NaturalOrder]) and of [src/comparator-builder.ts]
    ([_compareKeyValue] and the handlers of the proxy returned by
    [comparatorBuilder]) over a small model of the JavaScript values and
    operators these functions use, followed by the collection helpers of
    [src/utils.ts] ([find], [mapLazy], [isDisjoint], [isSubset], [keysOf]).

    - JavaScript numbers are IEEE 754 binary64 values: [spec_float], with
      [SFeqb] and [SFltb] for [==] and [<] (NaN is unordered and unequal to
      itself, the two zeros are equal).
    - Objects live in a heap, a finite map from locations to property maps;
      the value [VObject l] is a reference, compared by identity.
    - Every operation runs in a state-and-exception monad over the heap:
      user-supplied functions may mutate objects and may throw.
    - What the repository does not define (user functions, the conversion
      of objects to primitives, [localeCompare], [JSON.stringify], the
      parsing of numeric strings, the properties primitives inherit) is
      taken from a [host] record.
    - The builder's only state is its chain, [comparatorChain]; it is
      passed explicitly, and user functions act on the heap alone. *)

From Stdlib Require Import ZArith String Ascii Bool List Lia DecimalString.
From Stdlib Require Import Floats.SpecFloat.
From stdpp Require Import base option gmap strings.
Import ListNotations.

Local Open Scope string_scope.

(** ** Values *)

Definition loc := positive.
Definition fid := positive.

Inductive value :=
| VUndefined
| VNull
| VBool (b : bool)
| VNumber (n : spec_float)
| VString (s : string)
| VObject (l : loc)
| VFunction (f : fid).

Definition num (z : Z) : spec_float := binary_normalize 53 1024 z 0 false.

Definition NaN : spec_float := S754_nan.

Abbreviation heap := (gmap loc (gmap string value)).

(** ** Outcomes

    [TypeError] is raised by the engine (calling a non-function, reading a
    property of [undefined]); [UsageError] is the [Error] object created at
    line 110 of comparator-builder.ts; [Raised] is anything user code
    throws. *)

Inductive exn :=
| TypeError (msg : string)
| UsageError (msg : string)
| Raised (v : value).

Inductive result (A : Type) :=
| Ok (a : A)
| Throw (e : exn).
Arguments Ok {A} a.
Arguments Throw {A} e.

Definition M (A : Type) : Type := heap -> result A * heap.

Definition ret {A} (a : A) : M A := fun h => (Ok a, h).

Definition throw {A} (e : exn) : M A := fun h => (Throw e, h).

Definition bind {A B} (m : M A) (k : A -> M B) : M B :=
  fun h => match m h with
           | (Ok a, h') => k a h'
           | (Throw e, h') => (Throw e, h')
           end.

Notation "'let*' x ':=' m 'in' k" := (bind m (fun x => k))
  (at level 10, x name, m at level 100, k at level 200).

(** What user code hands back: a returned value or a thrown one. *)
Inductive completion :=
| Return (v : value)
| Raise (v : value).

Definition lift (c : heap -> completion * heap) : M value :=
  fun h => match c h with
           | (Return v, h') => (Ok v, h')
           | (Raise v, h') => (Throw (Raised v), h')
           end.

Inductive hint := HintDefault | HintNumber.

(** ** The host: everything the two source files call but do not define *)

Record host := {
  (* the body of the user function [f], applied to [this] and the arguments *)
  invoke : fid -> value -> list value -> heap -> completion * heap;
  (* ToPrimitive on an object or function (valueOf / toString) *)
  ToPrimitive : hint -> value -> heap -> completion * heap;
  (* StringToNumber *)
  StringToNumber : string -> spec_float;
  (* s.localeCompare(t, 'standard', { sensitivity: 'case' }) *)
  localeCompare : string -> string -> spec_float;
  (* the text of JSON.stringify(x) as interpolated in a template *)
  JSON_stringify : value -> heap -> completion * heap;
  (* properties that booleans, numbers, strings and functions inherit *)
  inherited : value -> string -> value
}.

(** ** Operators of the language *)

Definition typeof (v : value) : string :=
  match v with
  | VUndefined => "undefined"
  | VNull => "object"
  | VBool _ => "boolean"
  | VNumber _ => "number"
  | VString _ => "string"
  | VObject _ => "object"
  | VFunction _ => "function"
  end.

(* ToBoolean *)
Definition truthy (v : value) : bool :=
  match v with
  | VUndefined | VNull => false
  | VBool b => b
  | VNumber (S754_zero _) | VNumber S754_nan => false
  | VNumber _ => true
  | VString s => negb (String.eqb s EmptyString)
  | VObject _ | VFunction _ => true
  end.

Definition is_nullish (v : value) : bool :=
  match v with VUndefined | VNull => true | _ => false end.

Definition is_object (v : value) : bool :=
  match v with VObject _ | VFunction _ => true | _ => false end.

(* a === b *)
Definition strict_eq (a b : value) : bool :=
  match a, b with
  | VUndefined, VUndefined => true
  | VNull, VNull => true
  | VBool x, VBool y => Bool.eqb x y
  | VNumber x, VNumber y => SFeqb x y
  | VString s, VString t => String.eqb s t
  | VObject l, VObject l' => Pos.eqb l l'
  | VFunction f, VFunction g => Pos.eqb f g
  | _, _ => false
  end.

Definition is_nan (n : spec_float) : bool :=
  match n with S754_nan => true | _ => false end.

(* booleans, numbers and strings *)
Definition scalar (v : value) : bool :=
  match v with VBool _ | VNumber _ | VString _ => true | _ => false end.

Definition both_strings (a b : value) : bool :=
  match a, b with VString _, VString _ => true | _, _ => false end.

Section Semantics.

Variable w : host.

(* ToNumber on a primitive *)
Definition ToNumber (v : value) : spec_float :=
  match v with
  | VUndefined => NaN
  | VNull => num 0
  | VBool b => if b then num 1 else num 0
  | VNumber n => n
  | VString s => StringToNumber w s
  | VObject _ | VFunction _ => NaN
  end.

(* ToPrimitive: the identity on primitives; on objects the host's
   conversion, whose result must be a primitive. *)
Definition to_primitive (hn : hint) (v : value) : M value :=
  if is_object v then
    let* p := lift (ToPrimitive w hn v) in
    if is_object p
    then throw (TypeError "Cannot convert object to primitive value")
    else ret p
  else ret v.

(* IsLooselyEqual on two primitives *)
Definition prim_loose_eq (p q : value) : bool :=
  if is_nullish p || is_nullish q then is_nullish p && is_nullish q
  else match p, q with
       | VString s, VString t => String.eqb s t
       | _, _ => SFeqb (ToNumber p) (ToNumber q)
       end.

(* a == b *)
Definition loose_eq (a b : value) : M bool :=
  if is_object a && is_object b then ret (strict_eq a b)
  else if is_nullish a || is_nullish b then ret (is_nullish a && is_nullish b)
  else
    let* pa := to_primitive HintDefault a in
    let* pb := to_primitive HintDefault b in
    ret (prim_loose_eq pa pb).

(* IsLessThan on two primitives, [undefined] (a NaN operand) read as false *)
Definition prim_less_than (p q : value) : bool :=
  match p, q with
  | VString s, VString t => String.ltb s t
  | _, _ => SFltb (ToNumber p) (ToNumber q)
  end.

(* a > b: the left operand is converted first *)
Definition greater_than (a b : value) : M bool :=
  let* pa := to_primitive HintNumber a in
  let* pb := to_primitive HintNumber b in
  ret (prim_less_than pb pa).

(* the value stored under [k] in the object at [l]; [undefined] when the
   object has no such property *)
Definition field_of (h : heap) (l : loc) (k : string) : value :=
  default VUndefined (h !! l ≫= (fun o => o !! k)).

(* o[k] *)
Definition Get (o : value) (k : string) : M value :=
  match o with
  | VUndefined | VNull =>
      throw (TypeError ("Cannot read properties of undefined or null: " ++ k))
  | VObject l => fun h => (Ok (field_of h l k), h)
  | _ => ret (inherited w o k)
  end.

(* f.call(this, ...args) *)
Definition Call (f this : value) (args : list value) : M value :=
  match f with
  | VFunction g => lift (invoke w g this args)
  | _ => throw (TypeError "not a function")
  end.

(** ** comparator.ts *)

(* o && typeof o === 'object' && o.compareTo !== null, read as a condition *)
Definition isComparable (o : value) : M bool :=
  if negb (truthy o) then ret false
  else if negb (String.eqb (typeof o) "object") then ret false
  else
    let* c := Get o "compareTo" in
    ret (negb (strict_eq c VNull)).

(* o && typeof o === 'object' && o.compare != null, read as a condition *)
Definition isComparator (o : value) : M bool :=
  if negb (truthy o) then ret false
  else if negb (String.eqb (typeof o) "object") then ret false
  else
    let* c := Get o "compare" in
    let* e := loose_eq c VNull in
    ret (negb e).

Definition NaturalOrder (o1 o2 : value) : M value :=
  let* same := loose_eq o1 o2 in
  if same then ret (VNumber (num 0)) else
  let* null1 := loose_eq o1 VNull in
  if null1 then ret (VNumber (num (-1))) else
  let* null2 := loose_eq o2 VNull in
  if null2 then ret (VNumber (num 1)) else
  let* c1 := isComparable o1 in
  let* c2 := if c1 then isComparable o2 else ret false in
  if c2 then
    let* compareTo := Get o1 "compareTo" in
    Call compareTo o1 [o2]
  else
    match o1, o2 with
    | VString s1, VString s2 => ret (VNumber (localeCompare w s1 s2))
    | _, _ =>
        let* gt := greater_than o2 o1 in
        ret (VNumber (if gt then num (-1) else num 1))
    end.

Definition ReverseNaturalOrder (o1 o2 : value) : M value :=
  NaturalOrder o2 o1.

(** ** comparator-builder.ts *)

(** The [compare] member of a chain entry is one of two closures: the arrow
    function a field operation creates around its argument [x] (lines
    102-111), or the [comparator.compare] value [thenComparing] stores. *)
Inductive CompareFn :=
| FieldCompare (x : value)
| Extracted (f : value).

Record CompareWithProp := {
  compareProp : option string;
  compare : CompareFn
}.

(* lines 102-111 *)
Definition field_compare (x o1 o2 : value) : M value :=
  if negb (truthy x) then NaturalOrder o1 o2
  else if String.eqb (typeof x) "function" then Call x VUndefined [o1; o2]
  else
    let* c := isComparator x in
    if c then
      let* f := Get x "compare" in
      Call f x [o1; o2]
    else
      let* s := lift (JSON_stringify w x) in
      match s with
      | VString s => throw (UsageError ("Unknown compare operation " ++ s))
      | _ => throw (UsageError "Unknown compare operation undefined")
      end.

Definition apply_compare (c : CompareFn) (o1 o2 : value) : M value :=
  match c with
  | FieldCompare x => field_compare x o1 o2
  | Extracted f => Call f VUndefined [o1; o2]
  end.

Definition _compareKeyValue (o1 o2 : value) (e : CompareWithProp) : M value :=
  match compareProp e with
  | None =>
      apply_compare (compare e) o1 o2
  | Some p =>
      let* o1Element := Get o1 p in
      let* o2Element := Get o2 p in
      apply_compare (compare e) o1Element o2Element
  end.

(* the for loop of lines 73-81 *)
Fixpoint compare_rest (initial : value) (rest : list CompareWithProp)
    (o1 o2 : value) : M value :=
  match rest with
  | [] => ret initial
  | val :: rest' =>
      let* zero := loose_eq initial (VNumber (num 0)) in
      if negb zero then ret initial
      else
        let* next := _compareKeyValue o1 o2 val in
        compare_rest next rest' o1 o2
  end.

(* lines 64-82 *)
Definition builder_compare (comparatorChain : list CompareWithProp)
    (o1 o2 : value) : M value :=
  if (length comparatorChain <? 1)%nat then ret (VNumber (num 0))
  else
    match comparatorChain with
    | [] => ret (VNumber (num 0))
    | first :: rest =>
        let* initial := _compareKeyValue o1 o2 first in
        compare_rest initial rest o1 o2
    end.

(* the compare method of the object reversed() returns (lines 84-88); the
   chain is the builder's chain at the time of the call *)
Definition reversed_compare (comparatorChain : list CompareWithProp)
    (o1 o2 : value) : M value :=
  builder_compare comparatorChain o2 o1.

(** The proxy's [get] trap dispatches on the property name. *)
Inductive member :=
| GetComparatorChain
| Compare
| Reversed
| ThenComparing
| Field (prop : string).

Definition get (prop : string) : member :=
  if String.eqb prop "getComparatorChain" then GetComparatorChain
  else if String.eqb prop "compare" then Compare
  else if String.eqb prop "reversed" then Reversed
  else if String.eqb prop "thenComparing" then ThenComparing
  else Field prop.

(** What a call of a member gives back. [RBuilder] is the builder itself,
    [RReversed] the comparator object of [reversed()], whose [compare] is
    [reversed_compare]. *)
Inductive returned :=
| RChain (chain : list CompareWithProp)
| RValue (v : value)
| RReversed
| RBuilder.

Definition arg (n : nat) (args : list value) : value :=
  nth n args VUndefined.

(** Calling the function the trap returned: the result and the chain
    afterwards ([comparatorChain] is the only state of the closure). *)
Definition call_member (m : member) (args : list value)
    (comparatorChain : list CompareWithProp)
    : M (returned * list CompareWithProp) :=
  match m with
  | GetComparatorChain => ret (RChain comparatorChain, comparatorChain)
  | Compare =>
      let* r := builder_compare comparatorChain (arg 0 args) (arg 1 args) in
      ret (RValue r, comparatorChain)
  | Reversed => ret (RReversed, comparatorChain)
  | ThenComparing =>
      let* c := Get (arg 0 args) "compare" in
      ret (RBuilder,
           (comparatorChain ++
              [{| compareProp := None; compare := Extracted c |}])%list)
  | Field prop =>
      ret (RBuilder,
           (comparatorChain ++
              [{| compareProp := Some prop;
                  compare := FieldCompare (arg 0 args) |}])%list)
  end.

(** The entries of [pre], run in order from the heap [h], all return a
    number equal to 0; the result is the heap they leave. *)
Fixpoint all_zero (pre : list CompareWithProp) (o1 o2 : value) (h : heap)
    : option heap :=
  match pre with
  | [] => Some h
  | e :: pre' =>
      match _compareKeyValue o1 o2 e h with
      | (Ok (VNumber z), h') =>
          if SFeqb z (num 0) then all_zero pre' o1 o2 h' else None
      | _ => None
      end
  end.

(** The behaviour the specification gives for a chain of one field entry
    with no explicit function: project the field from both records and
    hand the two values to [NaturalOrder]. *)
Definition natural_order_of_field (prop : string) (o1 o2 : value) : M value :=
  let* a := Get o1 prop in
  let* b := Get o2 prop in
  NaturalOrder a b.

End Semantics.

(* the entry a field operation named [prop] appends for the argument [x] *)
Definition by_field (prop : string) (x : value) : CompareWithProp :=
  {| compareProp := Some prop; compare := FieldCompare x |}.

(* the entry thenComparing appends for a comparator whose [compare] member
   is the user function [f] *)
Definition by_function (f : fid) : CompareWithProp :=
  {| compareProp := None; compare := Extracted (VFunction f) |}.

(* a computation that never ends in the usage error *)
Definition quiet {A} (m : M A) : Prop :=
  forall h msg h', m h <> (Throw (UsageError msg), h').

(* what a template literal prints for the result of JSON.stringify: the
   text, or the word undefined when there is none *)
Definition template_text (v : value) : string :=
  match v with VString s => s | _ => "undefined" end.

(* one number is below 0 and the other above *)
Definition opposite_signs (x y : spec_float) : bool :=
  (SFltb x (num 0) && SFltb (num 0) y) || (SFltb (num 0) x && SFltb y (num 0)).

(** What sign antisymmetry of [NaturalOrder] on [a] and [b] rests on,
    branch by branch. Two strings are ordered by the host's
    [localeCompare], which has to give the two orders opposite signs; two
    objects whose [compareTo] members are not null are ordered by those
    methods, which have to return numbers of opposite signs; booleans,
    numbers and a string against one of these are ordered by [>], which
    needs both numeric conversions to be numbers (not NaN). *)
Definition orderable_pair (w : host) (a b : value) (h : heap) : Prop :=
  match a, b with
  | VString s, VString t =>
      opposite_signs (localeCompare w s t) (localeCompare w t s) = true
  | VObject l1, VObject l2 =>
      strict_eq (field_of h l1 "compareTo") VNull = false /\
      strict_eq (field_of h l2 "compareTo") VNull = false /\
      exists r1 h1 r2 h2,
        Call w (field_of h l1 "compareTo") a [b] h = (Ok (VNumber r1), h1) /\
        Call w (field_of h l2 "compareTo") b [a] h = (Ok (VNumber r2), h2) /\
        opposite_signs r1 r2 = true
  | _, _ =>
      scalar a = true /\ scalar b = true /\
      is_nan (ToNumber w a) = false /\ is_nan (ToNumber w b) = false
  end.

(** ** An example host and heap

    Used by the closed examples only. Its strings are ordered by code
    unit, which agrees with a locale's collation on the lower-case ASCII
    words used below; a string converts to NaN unless it is empty. Three
    user functions are installed:
    - function 1 returns the fixed number 7;
    - function 2 is a counting stub: it adds one to the property [n] of the
      object at location 9 and returns 0;
    - function 3 is [(o1, o2) => o1 - o2]. *)
Module Example.

Definition Z_of_float (n : spec_float) : option Z :=
  match n with
  | S754_zero _ => Some 0%Z
  | S754_finite s m e =>
      let mag :=
        if (0 <=? e)%Z then Some (Z.pos m * 2 ^ e)%Z
        else if (Z.pos m mod 2 ^ (- e) =? 0)%Z
             then Some (Z.pos m / 2 ^ (- e))%Z else None in
      option_map (fun z => if s then (- z)%Z else z) mag
  | _ => None
  end.

Definition quote : string := String (ascii_of_nat 34) EmptyString.

Definition stringify (x : value) : value :=
  match x with
  | VUndefined | VFunction _ => VUndefined
  | VNull => VString "null"
  | VBool b => VString (if b then "true" else "false")
  | VNumber n =>
      match Z_of_float n with
      | Some z => VString (NilZero.string_of_int (Z.to_int z))
      | None => VString "null"
      end
  | VString s => VString (quote ++ s ++ quote)
  | VObject _ => VString "{}"
  end.

Definition counter : loc := 9%positive.

Definition bump (h : heap) : heap :=
  match h !! counter with
  | Some o =>
      match o !! "n" with
      | Some (VNumber k) =>
          <[counter := <["n" := VNumber (SFadd 53 1024 k (num 1))]> o]> h
      | _ => h
      end
  | None => h
  end.

Definition functions (f : fid) (this : value) (args : list value)
    (h : heap) : completion * heap :=
  match f with
  | 1%positive => (Return (VNumber (num 7)), h)
  | 2%positive => (Return (VNumber (num 0)), bump h)
  | 3%positive =>
      match args with
      | VNumber a :: VNumber b :: _ => (Return (VNumber (SFsub 53 1024 a b)), h)
      | _ => (Return (VNumber NaN), h)
      end
  | _ => (Return VUndefined, h)
  end.

Definition js : host := {|
  invoke := functions;
  ToPrimitive := fun _ v h =>
    (Return (VString (if v is VObject _ then "[object Object]"
                      else "function () {}")), h);
  StringToNumber := fun s => if String.eqb s EmptyString then num 0 else NaN;
  localeCompare := fun s t =>
    match String.compare s t with
    | Lt => num (-1) | Eq => num 0 | Gt => num 1
    end;
  JSON_stringify := fun x h => (Return (stringify x), h);
  inherited := fun _ _ => VUndefined
|}.

(* { foo: 'a', bar: 1, baz: 'apple' } at 1, { foo: 'a', bar: 3, baz:
   'apple' } at 2, the empty object at 3, { f: null } at 4 and the stub's
   counter { n: 0 } at 9 *)
Definition store : heap :=
  {[ 1%positive := {[ "foo" := VString "a"; "bar" := VNumber (num 1);
                      "baz" := VString "apple" ]};
     2%positive := {[ "foo" := VString "a"; "bar" := VNumber (num 3);
                      "baz" := VString "apple" ]};
     3%positive := ∅;
     4%positive := {[ "f" := VNull ]};
     counter := {[ "n" := VNumber (num 0) ]} ]}.

Definition r1 : value := VObject 1%positive.
Definition r2 : value := VObject 2%positive.
Definition empty_record : value := VObject 3%positive.
Definition null_record : value := VObject 4%positive.

End Example.

(** ** Calls on one builder, and orders read off the records *)

Section Sessions.

Variable w : host.

(* builder[name](...args) for each call in turn, every call on the chain the
   previous one left: the chain after the last call *)
Fixpoint session (calls : list (string * list value))
    (comparatorChain : list CompareWithProp) : M (list CompareWithProp) :=
  match calls with
  | [] => ret comparatorChain
  | call :: rest =>
      let* r := call_member w (get (fst call)) (snd call) comparatorChain in
      session rest (snd r)
  end.

End Sessions.

(* the entry a call [(name, args)] of a field operation appends *)
Definition entry_of (call : string * list value) : CompareWithProp :=
  by_field (fst call) (arg 0 (snd call)).

Definition is_field_name (prop : string) : bool :=
  match get prop with Field _ => true | _ => false end.

(* the number -1, 0 or 1 an ordering stands for *)
Definition order_value (c : comparison) : value :=
  VNumber (match c with Lt => num (-1) | Eq => num 0 | Gt => num 1 end).

(* the number stored in a field, when it is a number other than NaN *)
Definition number_field (h : heap) (l : loc) (prop : string) : option spec_float :=
  match field_of h l prop with
  | VNumber n => if is_nan n then None else Some n
  | _ => None
  end.

(* the lexicographic order of two records on a list of numeric fields: the
   order of the first field on which they differ *)
Fixpoint lexicographic (h : heap) (l1 l2 : loc) (props : list string)
    : option comparison :=
  match props with
  | [] => Some Eq
  | p :: rest =>
      match number_field h l1 p, number_field h l2 p with
      | Some x, Some y =>
          match SFcompare x y with
          | Some Eq => lexicographic h l1 l2 rest
          | c => c
          end
      | _, _ => None
      end
  end.

Definition natural_chain (props : list string) : list CompareWithProp :=
  map (fun p => by_field p VUndefined) props.

(** Objects for the examples: at 5 an object with both a [compareTo] and a
    [compare] method, at 6 one whose [compareTo] is null, at 7 one whose
    [compare] member is the number 5, at 8 and 10 two records of numbers. *)
Module Fixture.

Definition objects : heap :=
  <[5%positive := {[ "compareTo" := VFunction 1%positive;
                     "compare" := VFunction 3%positive ]}]>
  (<[6%positive := {[ "compareTo" := VNull ]}]>
  (<[7%positive := {[ "compare" := VNumber (num 5) ]}]>
  (<[8%positive := {[ "foo" := VNumber (num 1); "bar" := VNumber (num 2) ]}]>
  (<[10%positive := {[ "foo" := VNumber (num 1); "bar" := VNumber (num 5) ]}]>
   Example.store)))).

(* a host for the examples of utils.ts: function 1 is the predicate
   [x => x > 2], function 2 is [x => x + 1] and counts its calls in the
   property [n] of the object at location 9 *)
Definition tools : host := {|
  invoke := fun f this args h =>
    match f, args with
    | 1%positive, VNumber x :: _ => (Return (VBool (SFltb (num 2) x)), h)
    | 2%positive, VNumber x :: _ =>
        (Return (VNumber (SFadd 53 1024 x (num 1))), Example.bump h)
    | _, _ => (Return VUndefined, h)
    end;
  ToPrimitive := ToPrimitive Example.js;
  StringToNumber := StringToNumber Example.js;
  localeCompare := localeCompare Example.js;
  JSON_stringify := JSON_stringify Example.js;
  inherited := inherited Example.js
|}.

Definition numbers (zs : list Z) : list value :=
  map (fun z => VNumber (num z)) zs.

(* the heap after [k] calls of the counting function *)
Definition counted (k : nat) : heap := Nat.iter k Example.bump Example.store.

End Fixture.

(** ** utils.ts

    Arrays are lists of values; an iterable is an array or the generator
    [mapLazy] makes over another iterable. A [for ... of] loop over a
    generator pulls one value at a time: the generator's body runs up to
    its next [yield] only when the loop asks for a value. *)

Inductive iterable :=
| Items (xs : list value)
| MapLazy (source : iterable) (fn : value).

(* Object.is on two numbers: NaN is itself, the two zeros differ *)
Definition same_number (x y : spec_float) : bool :=
  match x, y with
  | S754_nan, S754_nan => true
  | S754_zero s, S754_zero t => Bool.eqb s t
  | _, _ => SFeqb x y
  end.

(* Object.is *)
Definition same_value (a b : value) : bool :=
  match a, b with
  | VNumber x, VNumber y => same_number x y
  | _, _ => strict_eq a b
  end.

Section Utils.

Variable w : host.

(* for (const t of xs) { body } over an array, where [body] answers
   [Some a] to return [a] from the enclosing function *)
Fixpoint for_items {A} (xs : list value) (body : value -> M (option A))
    : M (option A) :=
  match xs with
  | [] => ret None
  | t :: rest =>
      let* r := body t in
      match r with
      | Some a => ret (Some a)
      | None => for_items rest body
      end
  end.

(* for (const t of iterable) { body }; over a generator of [mapLazy] each
   value is fn(t), computed when the loop reaches it *)
Fixpoint for_of {A} (it : iterable) (body : value -> M (option A))
    : M (option A) :=
  match it with
  | Items xs => for_items xs body
  | MapLazy source fn =>
      for_of source (fun t => let* v := Call w fn VUndefined [t] in body v)
  end.

(* export function* mapLazy(iterable, fn) *)
Definition mapLazy (it : iterable) (fn : value) : iterable := MapLazy it fn.

(* export function find(iterable, predicate) *)
Definition find (it : iterable) (predicate : value) : M value :=
  let* r := for_of it (fun t =>
              let* p := Call w predicate VUndefined [t] in
              ret (if truthy p then Some t else None)) in
  ret (default VUndefined r).

(* matcher(f, s), [matcher] defaulting to Object.is *)
Definition match_with (matcher f s : value) : M value :=
  match matcher with
  | VUndefined => ret (VBool (same_value f s))
  | _ => Call w matcher VUndefined [f; s]
  end.

(* Array.prototype.some *)
Fixpoint some (xs : list value) (callback : value -> M value) : M bool :=
  match xs with
  | [] => ret false
  | x :: rest =>
      let* r := callback x in
      if truthy r then ret true else some rest callback
  end.

(* Array.prototype.every *)
Fixpoint every (xs : list value) (callback : value -> M value) : M bool :=
  match xs with
  | [] => ret true
  | x :: rest =>
      let* r := callback x in
      if truthy r then every rest callback else ret false
  end.

(* Array.prototype.find *)
Fixpoint array_find (xs : list value) (callback : value -> M value) : M value :=
  match xs with
  | [] => ret VUndefined
  | x :: rest =>
      let* r := callback x in
      if truthy r then ret x else array_find rest callback
  end.

(* c2.some((c2Elem) => matcher(c1Elem, c2Elem)) *)
Definition matches_some (c2 : list value) (matcher c1Elem : value) : M value :=
  let* b := some c2 (fun c2Elem => match_with matcher c1Elem c2Elem) in
  ret (VBool b).

(* export const isDisjoint *)
Definition isDisjoint (c1 c2 : list value) (matcher : value) : M bool :=
  let* found := array_find c1 (matches_some c2 matcher) in
  ret (strict_eq found VUndefined).

(* export const isSubset *)
Definition isSubset (c1 c2 : list value) (matcher : value) : M bool :=
  every c1 (matches_some c2 matcher).

(** The elements of [pre], offered in order to [fn] and then to
    [predicate], are all rejected; the result is the heap this leaves.
    [fn] is [None] for a plain array. *)
Fixpoint all_rejected (fn : option value) (predicate : value)
    (pre : list value) (h : heap) : option heap :=
  match pre with
  | [] => Some h
  | t :: rest =>
      match (let* v := match fn with
                       | Some f => Call w f VUndefined [t]
                       | None => ret t
                       end in
             Call w predicate VUndefined [v]) h with
      | (Ok p, h') => if truthy p then None else all_rejected fn predicate rest h'
      | _ => None
      end
  end.

End Utils.

(* a member of [c2] that Object.is identifies with [x] *)
Definition shared (c2 : list value) (x : value) : bool :=
  existsb (same_value x) c2.

(** ** keysOf and the pattern [/^-?\d+\.?\d*$/] *)

Definition is_digit (c : ascii) : bool :=
  (48 <=? nat_of_ascii c)%nat && (nat_of_ascii c <=? 57)%nat.

Fixpoint all_digits (s : string) : bool :=
  match s with
  | EmptyString => true
  | String c r => is_digit c && all_digits r
  end.

(* what is left after the longest run of digits at the front: [\d*] *)
Fixpoint skip_digits (s : string) : string :=
  match s with
  | EmptyString => EmptyString
  | String c r => if is_digit c then skip_digits r else s
  end.

(* _isNumber.test(s) *)
Definition _isNumber_test (s : string) : bool :=
  let unsigned :=
    match s with
    | String c r => if Ascii.eqb c "-" then r else s
    | EmptyString => s
    end in
  match unsigned with
  | EmptyString => false
  | String c r =>
      is_digit c &&
      match skip_digits r with
      | EmptyString => true
      | String d f => Ascii.eqb d "." && all_digits f
      end
  end.

Definition _containsOnlyNumbers (s : string) : bool :=
  negb (_isNumber_test s).

(* keysOf(o), given Object.keys(o) *)
Definition keysOf (keys : list string) : list string :=
  List.filter _containsOnlyNumbers keys.

(* a decimal numeral: an optional minus sign, one or more digits, and
   possibly a point followed by any number of digits *)
Definition decimal (s : string) : Prop :=
  exists sign int frac,
    s = sign ++ int ++ frac /\
    (sign = EmptyString \/ sign = "-") /\
    int <> EmptyString /\ all_digits int = true /\
    (frac = EmptyString \/ exists f, frac = String "." f /\ all_digits f = true).

(** * Properties *)

(** ** Numbers *)

Lemma SFcompare_antisym x y :
  SFcompare y x = option_map CompOpp (SFcompare x y).
Proof.
  destruct x as [sx|sx| |sx mx ex], y as [sy|sy| |sy my ey];
    try (destruct sx); try (destruct sy); try reflexivity; simpl.
  all: rewrite (Z.compare_antisym ex ey).
  all: destruct (ex ?= ey)%Z; simpl; try reflexivity.
  all: repeat f_equal; symmetry; exact (Pos.compare_cont_antisym mx my Eq).
Qed.

Lemma SFcompare_refl x : is_nan x = false -> SFcompare x x = Some Eq.
Proof.
  destruct x as [s|s| |s m e]; simpl; try discriminate; intros _;
    try (destruct s; reflexivity).
  rewrite Z.compare_refl.
  replace (Pos.compare_cont Eq m m) with (m ?= m)%positive by reflexivity.
  rewrite Pos.compare_refl. destruct s; reflexivity.
Qed.

Lemma SFeqb_refl x : is_nan x = false -> SFeqb x x = true.
Proof. intros H. unfold SFeqb. now rewrite SFcompare_refl. Qed.

(* two numbers that are not NaN and not equal are ordered one way *)
Lemma SFltb_total x y :
  is_nan x = false -> is_nan y = false -> SFeqb x y = false ->
  SFltb x y = negb (SFltb y x).
Proof.
  intros Hx Hy. unfold SFeqb, SFltb. rewrite (SFcompare_antisym x y).
  destruct (SFcompare x y) as [[]|] eqn:E; simpl; try reflexivity; try discriminate.
  destruct x, y; simpl in *; discriminate.
Qed.

(** ** The monad *)

Lemma bind_ret_r {A} (m : M A) h : bind m ret h = m h.
Proof. unfold bind, ret. destruct (m h) as [[a|e] h']; reflexivity. Qed.

Lemma bind_ok {A B} (m : M A) (k : A -> M B) h a h' :
  m h = (Ok a, h') -> bind m k h = k a h'.
Proof. intros E. unfold bind. now rewrite E. Qed.


(** ** The chain *)

Section Chain.

Variable w : host.

(* [initial != 0] on a number is the comparison of the two numbers *)
Lemma loose_eq_number n k h :
  loose_eq w (VNumber n) (VNumber k) h = (Ok (SFeqb n k), h).
Proof. reflexivity. Qed.

(* a non-zero running result leaves the loop at once, whatever follows *)
Lemma compare_rest_nonzero r rest o1 o2 h :
  SFeqb r (num 0) = false ->
  compare_rest w (VNumber r) rest o1 o2 h = (Ok (VNumber r), h).
Proof.
  intros Hr. destruct rest as [|val rest]; [reflexivity|].
  cbn [compare_rest]. rewrite (bind_ok _ _ _ _ _ (loose_eq_number r (num 0) h)).
  now rewrite Hr.
Qed.

Lemma compare_rest_first_nonzero pre : forall z e post o1 o2 h0 h1 h2 r,
  SFeqb z (num 0) = true ->
  all_zero w pre o1 o2 h0 = Some h1 ->
  _compareKeyValue w o1 o2 e h1 = (Ok (VNumber r), h2) ->
  SFeqb r (num 0) = false ->
  compare_rest w (VNumber z) (pre ++ e :: post) o1 o2 h0 = (Ok (VNumber r), h2).
Proof.
  induction pre as [|x pre IH]; intros z e post o1 o2 h0 h1 h2 r Hz Hpre He Hr.
  - injection Hpre as <-. cbn [app compare_rest].
    rewrite (bind_ok _ _ _ _ _ (loose_eq_number z (num 0) h0)), Hz.
    cbn [negb]. rewrite (bind_ok _ _ _ _ _ He).
    now apply compare_rest_nonzero.
  - cbn [all_zero] in Hpre.
    destruct (_compareKeyValue w o1 o2 x h0) as [[[| | |z'| | |]|] h0'] eqn:Ex;
      try discriminate.
    destruct (SFeqb z' (num 0)) eqn:Hz'; [|discriminate].
    cbn [app compare_rest].
    rewrite (bind_ok _ _ _ _ _ (loose_eq_number z (num 0) h0)), Hz.
    cbn [negb]. rewrite (bind_ok _ _ _ _ _ Ex).
    now apply (IH z' e post o1 o2 h0' h1 h2 r).
Qed.

(** C3 (short circuit). When the entries before [e] have all returned 0, in
    insertion order, and [e] returns the non-zero number [r], [compare]
    returns [r] in the heap [e] left, whatever entries follow [e]: their
    compare functions are not run (they would change the heap or throw). *)
Theorem compare_first_nonzero_wins pre e post o1 o2 h0 h1 h2 r :
  all_zero w pre o1 o2 h0 = Some h1 ->
  _compareKeyValue w o1 o2 e h1 = (Ok (VNumber r), h2) ->
  SFeqb r (num 0) = false ->
  builder_compare w (pre ++ e :: post) o1 o2 h0 = (Ok (VNumber r), h2).
Proof.
  intros Hpre He Hr. destruct pre as [|x pre].
  - injection Hpre as <-. cbn [app length builder_compare Nat.ltb Nat.leb].
    rewrite (bind_ok _ _ _ _ _ He). now apply compare_rest_nonzero.
  - cbn [all_zero] in Hpre.
    destruct (_compareKeyValue w o1 o2 x h0) as [[[| | |z| | |]|] h0'] eqn:Ex;
      try discriminate.
    destruct (SFeqb z (num 0)) eqn:Hz; [|discriminate].
    cbn [app length builder_compare Nat.ltb Nat.leb].
    rewrite (bind_ok _ _ _ _ _ Ex).
    now apply (compare_rest_first_nonzero pre z e post o1 o2 h0' h1 h2 r).
Qed.

(* when every entry returns 0 the chain is walked to its end *)
Lemma compare_rest_all_zero rest : forall z o1 o2 h0 h1,
  SFeqb z (num 0) = true ->
  all_zero w rest o1 o2 h0 = Some h1 ->
  exists z', SFeqb z' (num 0) = true /\
    compare_rest w (VNumber z) rest o1 o2 h0 = (Ok (VNumber z'), h1).
Proof.
  induction rest as [|x rest IH]; intros z o1 o2 h0 h1 Hz Hall.
  - injection Hall as <-. now exists z.
  - cbn [all_zero] in Hall.
    destruct (_compareKeyValue w o1 o2 x h0) as [[[| | |z'| | |]|] h0'] eqn:Ex;
      try discriminate.
    destruct (SFeqb z' (num 0)) eqn:Hz'; [|discriminate].
    cbn [compare_rest].
    rewrite (bind_ok _ _ _ _ _ (loose_eq_number z (num 0) h0)), Hz.
    cbn [negb]. rewrite (bind_ok _ _ _ _ _ Ex). now apply IH.
Qed.

(* a chain whose entries all return 0 is walked to its end and gives 0 *)
Lemma compare_all_zero chain o1 o2 h0 h1 :
  all_zero w chain o1 o2 h0 = Some h1 ->
  exists z, SFeqb z (num 0) = true /\
    builder_compare w chain o1 o2 h0 = (Ok (VNumber z), h1).
Proof.
  destruct chain as [|x rest]; intros Hall.
  - injection Hall as <-. now exists (num 0).
  - cbn [all_zero] in Hall.
    destruct (_compareKeyValue w o1 o2 x h0) as [[[| | |z| | |]|] h0'] eqn:Ex;
      try discriminate.
    destruct (SFeqb z (num 0)) eqn:Hz; [|discriminate].
    cbn [length builder_compare Nat.ltb Nat.leb].
    rewrite (bind_ok _ _ _ _ _ Ex).
    now apply compare_rest_all_zero.
Qed.

(* every name but the four structural ones selects a field operation *)
Lemma get_field prop :
  prop <> "getComparatorChain" -> prop <> "compare" ->
  prop <> "reversed" -> prop <> "thenComparing" ->
  get prop = Field prop.
Proof.
  intros H1 H2 H3 H4. unfold get.
  apply String.eqb_neq in H1, H2, H3, H4. now rewrite H1, H2, H3, H4.
Qed.

(** C5 (empty chain). [compare] on a builder with no entry returns 0 and
    raises nothing, for every pair of arguments; the chain and the heap are
    left as they were. *)
Theorem compare_empty_chain o1 o2 h :
  builder_compare w [] o1 o2 h = (Ok (VNumber (num 0)), h) /\
  call_member w (get "compare") [o1; o2] [] h
    = (Ok (RValue (VNumber (num 0)), []), h).
Proof. split; reflexivity. Qed.

(** C4 (reversed). Calling [reversed()] returns the comparator object and
    leaves the chain and the heap untouched; that object's
    [compare(o1, o2)] is the builder's [compare(o2, o1)] on the same chain:
    same result, same effects. *)
Theorem reversed_compare_swaps chain o1 o2 h :
  call_member w (get "reversed") [] chain h = (Ok (RReversed, chain), h) /\
  reversed_compare w chain o1 o2 h = builder_compare w chain o2 o1 h /\
  (let* r := reversed_compare w chain o1 o2 in ret (RValue r, chain)) h
    = call_member w (get "compare") [o2; o1] chain h.
Proof. repeat split. Qed.

Lemma field_compare_omitted o1 o2 h :
  field_compare w VUndefined o1 o2 h = NaturalOrder w o1 o2 h.
Proof. reflexivity. Qed.

(** C6 (one field entry, no function). A field operation called with no
    argument on a new builder leaves the chain with that single entry, and
    [compare] on it is [NaturalOrder] on the two projected values. *)
Theorem single_field_entry_is_natural_order prop o1 o2 h :
  let entry := {| compareProp := Some prop; compare := FieldCompare VUndefined |} in
  call_member w (Field prop) [] [] h = (Ok (RBuilder, [entry]), h) /\
  builder_compare w [entry] o1 o2 h = natural_order_of_field w prop o1 o2 h.
Proof.
  split; [reflexivity|].
  cbn [builder_compare length Nat.ltb Nat.leb compare_rest].
  rewrite bind_ret_r. reflexivity.
Qed.

End Chain.

(** ** Natural order *)

Section Natural.

Variable w : host.

Lemma loose_eq_nullish_l a b h :
  is_nullish a = true -> loose_eq w a b h = (Ok (is_nullish b), h).
Proof. destruct a; try discriminate; reflexivity. Qed.

Lemma loose_eq_nullish_r a b h :
  is_nullish b = true -> loose_eq w a b h = (Ok (is_nullish a), h).
Proof.
  destruct b; try discriminate; intros _; destruct a; reflexivity.
Qed.

Lemma loose_eq_scalar a b h :
  scalar a = true -> scalar b = true ->
  loose_eq w a b h = (Ok (prim_loose_eq w a b), h).
Proof. destruct a; try discriminate; destruct b; try discriminate; reflexivity. Qed.

Lemma isComparable_scalar o h :
  is_object o = false -> isComparable w o h = (Ok false, h).
Proof.
  destruct o; try discriminate; intros _; unfold isComparable;
    try reflexivity; destruct (truthy _); reflexivity.
Qed.

Lemma NaturalOrder_nullish_l a b h :
  is_nullish a = true ->
  NaturalOrder w a b h
    = (Ok (VNumber (if is_nullish b then num 0 else num (-1))), h).
Proof.
  intros Ha. unfold NaturalOrder.
  rewrite (bind_ok _ _ _ _ _ (loose_eq_nullish_l a b h Ha)).
  destruct (is_nullish b); [reflexivity|].
  now rewrite (bind_ok _ _ _ _ _ (loose_eq_nullish_l a VNull h Ha)).
Qed.

Lemma NaturalOrder_nullish_r a b h :
  is_nullish a = false -> is_nullish b = true ->
  NaturalOrder w a b h = (Ok (VNumber (num 1)), h).
Proof.
  intros Ha Hb. unfold NaturalOrder.
  rewrite (bind_ok _ _ _ _ _ (loose_eq_nullish_r a b h Hb)), Ha.
  rewrite (bind_ok _ _ _ _ _ (loose_eq_nullish_r a VNull h eq_refl)), Ha.
  now rewrite (bind_ok _ _ _ _ _ (loose_eq_nullish_l b VNull h Hb)).
Qed.

(* on two scalars that are not both strings, natural order is the numeric
   comparison of their conversions *)
Lemma NaturalOrder_scalar a b h :
  scalar a = true -> scalar b = true -> both_strings a b = false ->
  NaturalOrder w a b h
    = (Ok (VNumber (if SFeqb (ToNumber w a) (ToNumber w b) then num 0
                    else if SFltb (ToNumber w a) (ToNumber w b) then num (-1)
                    else num 1)), h).
Proof.
  intros Ha Hb Hs. unfold NaturalOrder.
  rewrite (bind_ok _ _ _ _ _ (loose_eq_scalar a b h Ha Hb)).
  assert (prim_loose_eq w a b = SFeqb (ToNumber w a) (ToNumber w b)) as ->.
  { destruct a; try discriminate; destruct b; try discriminate; reflexivity. }
  destruct (SFeqb _ _); [reflexivity|].
  rewrite (bind_ok _ _ _ _ _ (loose_eq_nullish_r a VNull h eq_refl)).
  assert (is_nullish a = false) as -> by (destruct a; try discriminate; reflexivity).
  rewrite (bind_ok _ _ _ _ _ (loose_eq_nullish_r b VNull h eq_refl)).
  assert (is_nullish b = false) as -> by (destruct b; try discriminate; reflexivity).
  rewrite (bind_ok _ _ _ _ _ (isComparable_scalar a h
            ltac:(destruct a; try discriminate; reflexivity))).
  cbn [bind ret].
  destruct a; try discriminate; destruct b; try discriminate; reflexivity.
Qed.

(** C7 (reflexivity). [NaturalOrder(x, x)] is 0 for every value [x] but
    NaN, by the equality test of the first line; NaN is not equal to
    itself and [NaturalOrder(NaN, NaN)] is 1, from the last line. *)
Theorem NaturalOrder_same_value x h :
  NaturalOrder w x x h
    = (Ok (VNumber (if x is VNumber S754_nan then num 1 else num 0)), h).
Proof.
  destruct x as [| |b|n|s|l|f].
  - reflexivity.
  - reflexivity.
  - rewrite NaturalOrder_scalar by reflexivity.
    rewrite SFeqb_refl; [reflexivity | destruct b; reflexivity].
  - rewrite NaturalOrder_scalar by reflexivity. cbn [ToNumber].
    destruct n as [sn|sn| |sn m e]; try reflexivity.
    + destruct sn; reflexivity.
    + now rewrite (SFeqb_refl (S754_finite sn m e)).
  - unfold NaturalOrder.
    rewrite (bind_ok _ _ _ _ _ (loose_eq_scalar (VString s) (VString s) h eq_refl eq_refl)).
    cbn [prim_loose_eq is_nullish orb]. now rewrite String.eqb_refl.
  - unfold NaturalOrder, loose_eq. cbn. now rewrite Pos.eqb_refl.
  - unfold NaturalOrder, loose_eq. cbn. now rewrite Pos.eqb_refl.
Qed.

(* two booleans, numbers or strings, not both strings, that convert to
   numbers and are not loosely equal: one order gives -1, the other 1 *)
Lemma NaturalOrder_scalars_opposite a b h :
  scalar a = true -> scalar b = true -> both_strings a b = false ->
  is_nan (ToNumber w a) = false -> is_nan (ToNumber w b) = false ->
  loose_eq w a b h = (Ok false, h) ->
  (NaturalOrder w a b h = (Ok (VNumber (num (-1))), h) /\
   NaturalOrder w b a h = (Ok (VNumber (num 1)), h))
  \/
  (NaturalOrder w a b h = (Ok (VNumber (num 1)), h) /\
   NaturalOrder w b a h = (Ok (VNumber (num (-1))), h)).
Proof.
  intros Ha Hb Hs Na Nb Hne.
  rewrite (loose_eq_scalar a b h Ha Hb) in Hne.
  assert (Hab : SFeqb (ToNumber w a) (ToNumber w b) = false).
  { injection Hne as Hne. rewrite <- Hne.
    destruct a; try discriminate; destruct b; try discriminate; reflexivity. }
  assert (Hba : SFeqb (ToNumber w b) (ToNumber w a) = false).
  { unfold SFeqb in *. rewrite SFcompare_antisym.
    destruct (SFcompare (ToNumber w a) (ToNumber w b)) as [[]|];
      try discriminate; reflexivity. }
  assert (Hs' : both_strings b a = false).
  { destruct a; try discriminate; destruct b; try discriminate; reflexivity. }
  rewrite (NaturalOrder_scalar a b h Ha Hb Hs), (NaturalOrder_scalar b a h Hb Ha Hs').
  rewrite Hab, Hba, (SFltb_total _ _ Na Nb Hab).
  destruct (SFltb (ToNumber w b) (ToNumber w a)); [right|left]; split; reflexivity.
Qed.

End Natural.

(** ** Which computations can raise the usage error *)

Create HintDb quiet.

Lemma quiet_ret {A} (a : A) : quiet (ret a).
Proof. intros h msg h'. discriminate. Qed.

Lemma quiet_type_error {A} msg : quiet (@throw A (TypeError msg)).
Proof. intros h m h'. discriminate. Qed.

Lemma quiet_lift c : quiet (lift c).
Proof.
  intros h msg h'. unfold lift. destruct (c h) as [[v|v] h'']; discriminate.
Qed.

Lemma quiet_bind {A B} (m : M A) (k : A -> M B) :
  quiet m -> (forall a, quiet (k a)) -> quiet (bind m k).
Proof.
  intros Hm Hk h msg h'. unfold bind.
  destruct (m h) as [[a|e] h''] eqn:E.
  - apply Hk.
  - intros [= -> ->]. exact (Hm _ _ _ E).
Qed.

Lemma quiet_if {A} (b : bool) (m1 m2 : M A) :
  quiet m1 -> quiet m2 -> quiet (if b then m1 else m2).
Proof. now destruct b. Qed.

#[local] Hint Resolve quiet_ret quiet_type_error quiet_lift quiet_if : quiet.

Ltac quiet_step :=
  repeat first
    [ apply quiet_bind; [|intros ?]
    | apply quiet_if
    | apply quiet_ret
    | apply quiet_type_error
    | apply quiet_lift ].

Section Usage.

Variable w : host.

Lemma quiet_to_primitive hn v : quiet (to_primitive w hn v).
Proof. unfold to_primitive. quiet_step. Qed.

Lemma quiet_loose_eq a b : quiet (loose_eq w a b).
Proof. unfold loose_eq. quiet_step; apply quiet_to_primitive. Qed.

Lemma quiet_greater_than a b : quiet (greater_than w a b).
Proof. unfold greater_than. quiet_step; apply quiet_to_primitive. Qed.

Lemma quiet_Get o k : quiet (Get w o k).
Proof.
  destruct o; cbn [Get]; auto with quiet. intros h msg h'. discriminate.
Qed.

Lemma quiet_Call f this args : quiet (Call w f this args).
Proof. destruct f; cbn [Call]; auto with quiet. Qed.

Lemma quiet_isComparable o : quiet (isComparable w o).
Proof. unfold isComparable. quiet_step. apply quiet_Get. Qed.

#[local] Hint Resolve quiet_loose_eq quiet_greater_than quiet_Get quiet_Call
  quiet_isComparable : quiet.

Lemma quiet_NaturalOrder o1 o2 : quiet (NaturalOrder w o1 o2).
Proof.
  unfold NaturalOrder.
  repeat (apply quiet_bind; [auto with quiet | intros ?]; apply quiet_if;
          [auto with quiet|]).
  apply quiet_bind; [auto with quiet | intros c1].
  apply quiet_bind; [auto with quiet | intros c2].
  apply quiet_if.
  - apply quiet_bind; auto with quiet.
  - destruct o1, o2; try (apply quiet_bind; auto with quiet); auto with quiet.
Qed.

(* the guard reads one property and changes nothing *)
Lemma isComparator_pure x h : exists b, isComparator w x h = (Ok b, h).
Proof.
  unfold isComparator.
  destruct (truthy x) eqn:T; cbn [negb]; [|now exists false].
  destruct (String.eqb (typeof x) "object") eqn:O; cbn [negb]; [|now exists false].
  destruct x; try discriminate. cbn [Get bind].
  rewrite (bind_ok _ _ _ _ _ (loose_eq_nullish_r w _ VNull h eq_refl)).
  now eexists.
Qed.

(** C10 (falsy arguments). A field operation given an argument that is
    falsy (0, the empty string, false, null, NaN as well as undefined)
    appends an entry whose compare function is [NaturalOrder], as when the
    argument is omitted; and the usage error comes out of an entry's
    compare function only when the argument is truthy, not a function, and
    not an object with a [compare] member. *)
Theorem falsy_argument_is_natural_order prop x chain o1 o2 h :
  call_member w (Field prop) [x] chain h
    = (Ok (RBuilder, (chain ++ [by_field prop x])%list), h) /\
  (truthy x = false ->
   apply_compare w (compare (by_field prop x)) o1 o2 h = NaturalOrder w o1 o2 h /\
   apply_compare w (compare (by_field prop x)) o1 o2 h
     = apply_compare w (compare (by_field prop VUndefined)) o1 o2 h) /\
  (forall msg h',
     apply_compare w (compare (by_field prop x)) o1 o2 h
       = (Throw (UsageError msg), h') ->
     truthy x = true /\ String.eqb (typeof x) "function" = false /\
     isComparator w x h = (Ok false, h)).
Proof.
  split; [reflexivity|]. cbn [by_field compare apply_compare]. split.
  - intros T. unfold field_compare. rewrite T. split; reflexivity.
  - intros msg h' E. unfold field_compare in E.
    destruct (truthy x) eqn:T; cbn [negb] in E.
    2:{ exfalso. exact (quiet_NaturalOrder o1 o2 _ _ _ E). }
    destruct (String.eqb (typeof x) "function") eqn:F.
    { exfalso. exact (quiet_Call _ _ _ _ _ _ E). }
    destruct (isComparator_pure x h) as [b Hb].
    rewrite (bind_ok _ _ _ _ _ Hb) in E. destruct b.
    { exfalso. revert E. apply quiet_bind; auto with quiet. }
    repeat split; exact Hb.
Qed.

(** C1 (usage error). A field operation never raises: whatever its
    argument it appends one entry and returns the builder, leaving the heap
    as it was. When the argument is truthy, is not a function and has no
    [compare] member, the entry's compare function, each time [compare]
    runs it, serializes the argument with [JSON.stringify] and raises the
    usage error "Unknown compare operation" followed by that text (the
    word undefined when there is no text); when [JSON.stringify] itself
    throws, what it threw is raised instead. *)
Theorem usage_error_raised_by_compare prop x chain h :
  call_member w (Field prop) [x] chain h
    = (Ok (RBuilder, (chain ++ [by_field prop x])%list), h) /\
  (truthy x = true -> String.eqb (typeof x) "function" = false ->
   isComparator w x h = (Ok false, h) ->
   forall o1 o2,
     apply_compare w (compare (by_field prop x)) o1 o2 h
       = match JSON_stringify w x h with
         | (Return text, h') =>
             (Throw (UsageError ("Unknown compare operation "
                                   ++ template_text text)), h')
         | (Raise thrown, h') => (Throw (Raised thrown), h')
         end).
Proof.
  split; [reflexivity|].
  intros T F C o1 o2. cbn [by_field compare apply_compare].
  unfold field_compare.
  rewrite T, F. cbn [negb].
  rewrite (bind_ok _ _ _ _ _ C).
  unfold bind, lift.
  destruct (JSON_stringify w x h) as [[text|thrown] h']; [|reflexivity].
  destruct text; reflexivity.
Qed.

(** C9 (missing field). For a field entry with no explicit function and
    two records that are objects, no error is raised when a record lacks
    the field: its projection is [undefined]. Two [undefined] projections
    compare equal; an [undefined] projection against a value that is not
    [null] sorts first (-1 when it is the first argument's, 1 when the
    second's); against [null] the result is 0. *)
Theorem missing_field_sorts_first prop l1 l2 h :
  let entry := {| compareProp := Some prop; compare := FieldCompare VUndefined |} in
  let a := field_of h l1 prop in
  let b := field_of h l2 prop in
  a = VUndefined \/ b = VUndefined ->
  _compareKeyValue w (VObject l1) (VObject l2) entry h
    = (Ok (VNumber (if is_nullish a && is_nullish b then num 0
                    else if is_nullish a then num (-1) else num 1)), h).
Proof.
  intros entry a b H. unfold _compareKeyValue, entry.
  cbn [compareProp compare Get bind apply_compare]. fold a b.
  rewrite field_compare_omitted.
  destruct (is_nullish a) eqn:Na.
  - rewrite NaturalOrder_nullish_l by exact Na. reflexivity.
  - destruct H as [H|H]; [rewrite H in Na; discriminate|].
    rewrite NaturalOrder_nullish_r; [reflexivity | exact Na | now rewrite H].
Qed.

(* a record without the property projects to [undefined] *)
Lemma field_of_missing (h : heap) l (o : gmap string value) prop :
  h !! l = Some o -> o !! prop = None -> field_of h l prop = VUndefined.
Proof. intros Hl Hp. unfold field_of. rewrite Hl. cbn. now rewrite Hp. Qed.

Lemma isComparable_object l h :
  isComparable w (VObject l) h
    = (Ok (negb (strict_eq (field_of h l "compareTo") VNull)), h).
Proof. reflexivity. Qed.

(* two distinct objects without a [compareTo] member pass [isComparable]
   (undefined !== null) and the call of the missing method fails *)
Lemma NaturalOrder_plain_objects l1 l2 h :
  l1 <> l2 ->
  field_of h l1 "compareTo" = VUndefined ->
  field_of h l2 "compareTo" = VUndefined ->
  NaturalOrder w (VObject l1) (VObject l2) h
    = (Throw (TypeError "not a function"), h).
Proof.
  intros Hne H1 H2. apply Pos.eqb_neq in Hne. unfold NaturalOrder.
  assert (E : loose_eq w (VObject l1) (VObject l2) h = (Ok false, h))
    by (unfold loose_eq; cbn; now rewrite Hne).
  rewrite (bind_ok _ _ _ _ _ E).
  rewrite (bind_ok _ _ _ _ _ (loose_eq_nullish_r w (VObject l1) VNull h eq_refl)).
  cbn [is_nullish].
  rewrite (bind_ok _ _ _ _ _ (loose_eq_nullish_r w (VObject l2) VNull h eq_refl)).
  cbn [is_nullish].
  rewrite (bind_ok _ _ _ _ _ (isComparable_object l1 h)), H1. cbn [strict_eq negb].
  rewrite (bind_ok _ _ _ _ _ (isComparable_object l2 h)), H2. cbn [strict_eq negb].
  cbn [Get bind]. now rewrite H1.
Qed.

End Usage.

(** ** Sign antisymmetry *)

Section Antisymmetry.

Variable w : host.

Lemma loose_eq_objects l1 l2 h :
  loose_eq w (VObject l1) (VObject l2) h = (Ok (Pos.eqb l1 l2), h).
Proof. reflexivity. Qed.

Lemma NaturalOrder_two_strings s t h :
  NaturalOrder w (VString s) (VString t) h
    = (Ok (VNumber (if String.eqb s t then num 0 else localeCompare w s t)), h).
Proof.
  unfold NaturalOrder.
  rewrite (bind_ok _ _ _ _ _
             (loose_eq_scalar w (VString s) (VString t) h eq_refl eq_refl)).
  cbn [prim_loose_eq is_nullish orb]. destruct (String.eqb s t); [reflexivity|].
  rewrite (bind_ok _ _ _ _ _ (loose_eq_nullish_r w (VString s) VNull h eq_refl)).
  cbn [is_nullish].
  rewrite (bind_ok _ _ _ _ _ (loose_eq_nullish_r w (VString t) VNull h eq_refl)).
  cbn [is_nullish].
  rewrite (bind_ok _ _ _ _ _ (isComparable_scalar w (VString s) h eq_refl)).
  reflexivity.
Qed.

(* two distinct objects whose compareTo members are not null: the method
   of the first is called on the second *)
Lemma NaturalOrder_two_comparables l1 l2 h :
  Pos.eqb l1 l2 = false ->
  strict_eq (field_of h l1 "compareTo") VNull = false ->
  strict_eq (field_of h l2 "compareTo") VNull = false ->
  NaturalOrder w (VObject l1) (VObject l2) h
    = Call w (field_of h l1 "compareTo") (VObject l1) [VObject l2] h.
Proof.
  intros Hne H1 H2. unfold NaturalOrder.
  rewrite (bind_ok _ _ _ _ _ (loose_eq_objects l1 l2 h)), Hne.
  rewrite (bind_ok _ _ _ _ _ (loose_eq_nullish_r w (VObject l1) VNull h eq_refl)).
  cbn [is_nullish].
  rewrite (bind_ok _ _ _ _ _ (loose_eq_nullish_r w (VObject l2) VNull h eq_refl)).
  cbn [is_nullish].
  rewrite (bind_ok _ _ _ _ _ (isComparable_object w l1 h)), H1. cbn [negb].
  rewrite (bind_ok _ _ _ _ _ (isComparable_object w l2 h)), H2. cbn [negb].
  reflexivity.
Qed.

Lemma opposite_signs_sym x y : opposite_signs x y = opposite_signs y x.
Proof.
  unfold opposite_signs.
  destruct (SFltb x (num 0)), (SFltb (num 0) y), (SFltb (num 0) x),
    (SFltb y (num 0)); reflexivity.
Qed.

(** C8 (sign antisymmetry). For two values that are not null, not
    undefined and not loosely equal, [NaturalOrder(a, b)] and
    [NaturalOrder(b, a)] return numbers of opposite signs in each branch
    that orders them: two strings, when the host's [localeCompare] gives
    the two orders opposite signs; two objects with [compareTo] members
    that are not null, when the two calls return numbers of opposite
    signs; and booleans, numbers and strings that are not both strings,
    when neither converts to NaN. *)
Theorem NaturalOrder_opposite_signs a b h :
  is_nullish a = false -> is_nullish b = false ->
  loose_eq w a b h = (Ok false, h) ->
  orderable_pair w a b h ->
  exists r1 h1 r2 h2,
    NaturalOrder w a b h = (Ok (VNumber r1), h1) /\
    NaturalOrder w b a h = (Ok (VNumber r2), h2) /\
    opposite_signs r1 r2 = true.
Proof.
  intros Na Nb Hne Hord.
  assert (Scalars :
    scalar a = true -> scalar b = true -> both_strings a b = false ->
    is_nan (ToNumber w a) = false -> is_nan (ToNumber w b) = false ->
    exists r1 h1 r2 h2,
      NaturalOrder w a b h = (Ok (VNumber r1), h1) /\
      NaturalOrder w b a h = (Ok (VNumber r2), h2) /\
      opposite_signs r1 r2 = true).
  { intros Sa Sb Bs Ta Tb.
    destruct (NaturalOrder_scalars_opposite w a b h Sa Sb Bs Ta Tb Hne)
      as [[E1 E2]|[E1 E2]]; rewrite E1, E2; repeat eexists; reflexivity. }
  destruct a as [| |x|x|s|l1|f], b as [| |y|y|t|l2|g];
    try discriminate; cbn [orderable_pair] in Hord;
    try (destruct Hord as (Sa & Sb & Ta & Tb); try discriminate;
         now apply Scalars).
  - (* two strings *)
    rewrite (loose_eq_scalar w (VString s) (VString t) h eq_refl eq_refl) in Hne.
    cbn [prim_loose_eq is_nullish orb] in Hne. injection Hne as Hne.
    rewrite !NaturalOrder_two_strings, (String.eqb_sym t s), Hne.
    repeat eexists. exact Hord.
  - (* two objects *)
    rewrite loose_eq_objects in Hne. injection Hne as Hne.
    destruct Hord as (C1 & C2 & r1 & h1 & r2 & h2 & E1 & E2 & O).
    rewrite (NaturalOrder_two_comparables l1 l2 h Hne C1 C2), E1.
    rewrite (NaturalOrder_two_comparables l2 l1 h) by
      (try assumption; now rewrite Pos.eqb_sym).
    rewrite E2. repeat eexists. exact O.
Qed.

End Antisymmetry.

(** ** Closed examples on the example host *)

Section Examples.

Import Example.

(* names that are not structural operations are field operations *)
Example get_field_name : get "foo" = Field "foo" /\ get "compare" = Compare.
Proof. split; reflexivity. Qed.

(* the scenario of the specification: .foo().bar((o1, o2) => o1 - o2) *)
Example scenario_foo_bar :
  builder_compare js [by_field "foo" VUndefined; by_field "bar" (VFunction 3%positive)]
    r1 r2 store
  = (Ok (VNumber (num (-2))), store).
Proof. vm_compute. reflexivity. Qed.

(* a counting stub behind a fixed non-zero entry is never called: its
   counter still reads 0 *)
Example stub_not_called :
  let out := builder_compare js [by_function 1%positive; by_function 2%positive]
               r1 r2 store in
  fst out = Ok (VNumber (num 7)) /\
  field_of (snd out) counter "n" = VNumber (num 0).
Proof. vm_compute. split; reflexivity. Qed.

(* behind an entry that returns 0 the stub is called once *)
Example stub_called_after_zero :
  let out := builder_compare js [by_field "foo" VUndefined; by_function 2%positive]
               r1 r2 store in
  fst out = Ok (VNumber (num 0)) /\
  field_of (snd out) counter "n" = VNumber (num 1).
Proof. vm_compute. split; reflexivity. Qed.

(* with no argument the entry's compare function cannot raise the usage
   error, whatever the records *)
Example omitted_argument_is_quiet o1 o2 :
  quiet (apply_compare js (compare (by_field "foo" VUndefined)) o1 o2).
Proof. apply quiet_NaturalOrder. Qed.

(* thenComparing appends a whole-record entry after the field entry *)
Example thenComparing_appends :
  (let* b := call_member js (get "foo") [] [] in
   call_member js (get "thenComparing") [VObject 5%positive] (snd b))
    (<[5%positive := {[ "compare" := VFunction 1%positive ]}]> store)
  = (Ok (RBuilder, [by_field "foo" VUndefined; by_function 1%positive]),
     <[5%positive := {[ "compare" := VFunction 1%positive ]}]> store).
Proof. vm_compute. reflexivity. Qed.

(** C1, as stated, fails: the field operation called with 42 returns the
    builder and raises nothing; the error appears when [compare] runs. *)
Lemma field_operation_42_does_not_raise :
  call_member js (get "foo") [VNumber (num 42)] [] store
    = (Ok (RBuilder, [by_field "foo" (VNumber (num 42))]), store) /\
  (forall msg h',
     call_member js (get "foo") [VNumber (num 42)] [] store
       <> (Throw (UsageError msg), h')) /\
  builder_compare js [by_field "foo" (VNumber (num 42))] r1 r2 store
    = (Throw (UsageError "Unknown compare operation 42"), store).
Proof.
  split; [reflexivity|]. split; [discriminate|]. vm_compute. reflexivity.
Qed.

Lemma usage_error_raised_by_compare_witness :
  apply_compare js (compare (by_field "foo" (VNumber (num 42)))) r1 r2 store
    = (Throw (UsageError "Unknown compare operation 42"), store).
Proof.
  exact (proj2 (usage_error_raised_by_compare js "foo" (VNumber (num 42)) [] store)
           eq_refl eq_refl eq_refl r1 r2).
Defined.

(** C2: two plain objects, neither with a [compareTo] member, make
    [NaturalOrder] throw a TypeError instead of returning -1 or 1. *)
Theorem NaturalOrder_plain_objects_throw :
  field_of store 1%positive "compareTo" = VUndefined /\
  field_of store 2%positive "compareTo" = VUndefined /\
  isComparable js r1 store = (Ok true, store) /\
  NaturalOrder js r1 r2 store = (Throw (TypeError "not a function"), store).
Proof. refine (conj _ (conj _ (conj _ _))); vm_compute; reflexivity. Qed.

Lemma compare_first_nonzero_wins_witness :
  builder_compare js
    ([by_field "foo" VUndefined] ++ by_field "bar" (VFunction 3%positive)
       :: [by_function 2%positive]) r1 r2 store
  = (Ok (VNumber (num (-2))), store).
Proof.
  apply (compare_first_nonzero_wins js [by_field "foo" VUndefined]
           (by_field "bar" (VFunction 3%positive)) [by_function 2%positive]
           r1 r2 store store store (num (-2)));
    vm_compute; reflexivity.
Defined.

(** C7, as stated, fails at NaN: [NaturalOrder(NaN, NaN)] is 1, not 0. *)
Lemma NaturalOrder_nan_nan_is_one :
  NaturalOrder js (VNumber NaN) (VNumber NaN) store = (Ok (VNumber (num 1)), store) /\
  NaturalOrder js (VNumber NaN) (VNumber NaN) store <> (Ok (VNumber (num 0)), store).
Proof.
  split; [vm_compute; reflexivity|].
  intros E. apply (f_equal fst) in E. vm_compute in E. discriminate E.
Qed.

(** C8, as stated, fails at (NaN, 1): the two values are not null and not
    loosely equal, and both orders return 1. *)
Lemma NaturalOrder_nan_one_same_sign :
  loose_eq js (VNumber NaN) (VNumber (num 1)) store = (Ok false, store) /\
  NaturalOrder js (VNumber NaN) (VNumber (num 1)) store
    = (Ok (VNumber (num 1)), store) /\
  NaturalOrder js (VNumber (num 1)) (VNumber NaN) store
    = (Ok (VNumber (num 1)), store).
Proof. refine (conj _ (conj _ _)); vm_compute; reflexivity. Qed.

Lemma NaturalOrder_opposite_signs_witness :
  exists r1 h1 r2 h2,
    NaturalOrder js (VString "apple") (VString "pear") store
      = (Ok (VNumber r1), h1) /\
    NaturalOrder js (VString "pear") (VString "apple") store
      = (Ok (VNumber r2), h2) /\
    opposite_signs r1 r2 = true.
Proof.
  apply (NaturalOrder_opposite_signs js (VString "apple") (VString "pear") store);
    vm_compute; reflexivity.
Defined.

(** C9, as stated, fails when the other projection is [null]: the first
    record lacks the field, the second holds [null] there, exactly one
    projection is [undefined], and the entry returns 0, not a negative
    number. *)
Lemma undefined_against_null_is_zero :
  field_of store 3%positive "f" = VUndefined /\
  field_of store 4%positive "f" = VNull /\
  _compareKeyValue js empty_record null_record (by_field "f" VUndefined) store
    = (Ok (VNumber (num 0)), store) /\
  _compareKeyValue js empty_record null_record (by_field "f" VUndefined) store
    <> (Ok (VNumber (num (-1))), store).
Proof.
  refine (conj _ (conj _ (conj _ _))); try (vm_compute; reflexivity).
  intros E. apply (f_equal fst) in E. vm_compute in E. discriminate E.
Qed.

Lemma missing_field_sorts_first_witness :
  _compareKeyValue js empty_record r1 (by_field "foo" VUndefined) store
    = (Ok (VNumber (num (-1))), store).
Proof.
  apply (missing_field_sorts_first js "foo" 3%positive 1%positive store).
  left. vm_compute. reflexivity.
Defined.

Lemma falsy_argument_is_natural_order_witness :
  apply_compare js (compare (by_field "bar" (VNumber (num 0)))) r1 r2 store
    = NaturalOrder js r1 r2 store /\
  apply_compare js (compare (by_field "bar" (VNumber (num 0)))) r1 r2 store
    = apply_compare js (compare (by_field "bar" VUndefined)) r1 r2 store.
Proof.
  apply (proj1 (proj2 (falsy_argument_is_natural_order js "bar"
                         (VNumber (num 0)) [] r1 r2 store))).
  vm_compute. reflexivity.
Defined.

End Examples.

(** * Further properties of comparator.ts *)

Section MoreNatural.

Variable w : host.

Lemma bind_throw {A B} (m : M A) (k : A -> M B) h e h' :
  m h = (Throw e, h') -> bind m k h = (Throw e, h').
Proof. intros E. unfold bind. now rewrite E. Qed.

(** X1 (nulls first). When either argument is [null] or [undefined],
    [NaturalOrder] calls nothing and leaves the heap alone: two such
    values compare equal, one of them sorts before any other value. *)
Theorem NaturalOrder_nulls_first a b h :
  is_nullish a || is_nullish b = true ->
  NaturalOrder w a b h
    = (Ok (VNumber (if is_nullish a
                    then if is_nullish b then num 0 else num (-1)
                    else num 1)), h).
Proof.
  intros H. destruct (is_nullish a) eqn:Na.
  - now apply NaturalOrder_nullish_l.
  - cbn [orb] in H. now apply NaturalOrder_nullish_r.
Qed.

(** X2 (numbers). On two numbers [NaturalOrder] is 0 when they are equal,
    -1 when the first is less, and 1 in every other case: when the first
    is greater, and also when either of them is NaN. *)
Theorem NaturalOrder_numbers x y h :
  NaturalOrder w (VNumber x) (VNumber y) h
    = (Ok (VNumber match SFcompare x y with
                   | Some Eq => num 0
                   | Some Lt => num (-1)
                   | Some Gt | None => num 1
                   end), h).
Proof.
  rewrite NaturalOrder_scalar by reflexivity. cbn [ToNumber].
  unfold SFeqb, SFltb. destruct (SFcompare x y) as [[]|]; reflexivity.
Qed.

(** X3 (reverse order). [ReverseNaturalOrder] sorts numbers in descending
    order (-1 when the first is greater, 1 when it is less or when either
    is NaN) and sorts [null] and [undefined] last. *)
Theorem ReverseNaturalOrder_descending x y a b h :
  ReverseNaturalOrder w (VNumber x) (VNumber y) h
    = (Ok (VNumber match SFcompare x y with
                   | Some Eq => num 0
                   | Some Gt => num (-1)
                   | Some Lt | None => num 1
                   end), h) /\
  (is_nullish a = true -> is_nullish b = false ->
   ReverseNaturalOrder w a b h = (Ok (VNumber (num 1)), h) /\
   ReverseNaturalOrder w b a h = (Ok (VNumber (num (-1))), h)).
Proof.
  unfold ReverseNaturalOrder. split.
  - rewrite NaturalOrder_scalar by reflexivity. cbn [ToNumber].
    unfold SFeqb, SFltb. rewrite (SFcompare_antisym x y).
    destruct (SFcompare x y) as [[]|]; reflexivity.
  - intros Na Nb. split.
    + now apply NaturalOrder_nullish_r.
    + rewrite NaturalOrder_nullish_l by exact Na. now rewrite Nb.
Qed.

(** X4 (strings). Two equal strings compare as 0 without consulting the
    locale; two different strings get exactly what [localeCompare] says,
    which may be 0 as well. No method of either string is looked up. *)
Theorem NaturalOrder_strings s t h :
  (s = t -> NaturalOrder w (VString s) (VString t) h = (Ok (VNumber (num 0)), h)) /\
  (s <> t ->
   NaturalOrder w (VString s) (VString t) h
     = (Ok (VNumber (localeCompare w s t)), h)).
Proof.
  rewrite NaturalOrder_two_strings. split; intros H.
  - apply String.eqb_eq in H. now rewrite H.
  - apply String.eqb_neq in H. now rewrite H.
Qed.

(** X5 (delegation). For two distinct objects neither of whose [compareTo]
    members is [null], [NaturalOrder] is the call [o1.compareTo(o2)]: its
    result, its exception and its effects, whatever they are. *)
Theorem NaturalOrder_delegates l1 l2 h :
  l1 <> l2 ->
  strict_eq (field_of h l1 "compareTo") VNull = false ->
  strict_eq (field_of h l2 "compareTo") VNull = false ->
  NaturalOrder w (VObject l1) (VObject l2) h
    = Call w (field_of h l1 "compareTo") (VObject l1) [VObject l2] h.
Proof.
  intros Hne H1 H2. apply Pos.eqb_neq in Hne. unfold NaturalOrder.
  rewrite (bind_ok _ _ _ _ _ (loose_eq_objects w l1 l2 h)), Hne.
  rewrite (bind_ok _ _ _ _ _ (loose_eq_nullish_r w (VObject l1) VNull h eq_refl)).
  cbn [is_nullish].
  rewrite (bind_ok _ _ _ _ _ (loose_eq_nullish_r w (VObject l2) VNull h eq_refl)).
  cbn [is_nullish].
  rewrite (bind_ok _ _ _ _ _ (isComparable_object w l1 h)), H1. cbn [negb].
  rewrite (bind_ok _ _ _ _ _ (isComparable_object w l2 h)), H2. cbn [negb].
  reflexivity.
Qed.

(** X6 (null compareTo). When the [compareTo] member of either of two
    distinct objects is [null], no method is called: the objects are
    compared with [>], after their conversion to primitives. *)
Theorem NaturalOrder_null_compareTo l1 l2 h :
  l1 <> l2 ->
  strict_eq (field_of h l1 "compareTo") VNull
    || strict_eq (field_of h l2 "compareTo") VNull = true ->
  NaturalOrder w (VObject l1) (VObject l2) h
    = (let* gt := greater_than w (VObject l2) (VObject l1) in
       ret (VNumber (if gt then num (-1) else num 1))) h.
Proof.
  intros Hne H. apply Pos.eqb_neq in Hne. unfold NaturalOrder.
  rewrite (bind_ok _ _ _ _ _ (loose_eq_objects w l1 l2 h)), Hne.
  rewrite (bind_ok _ _ _ _ _ (loose_eq_nullish_r w (VObject l1) VNull h eq_refl)).
  cbn [is_nullish].
  rewrite (bind_ok _ _ _ _ _ (loose_eq_nullish_r w (VObject l2) VNull h eq_refl)).
  cbn [is_nullish].
  rewrite (bind_ok _ _ _ _ _ (isComparable_object w l1 h)).
  destruct (strict_eq (field_of h l1 "compareTo") VNull); cbn [negb].
  - reflexivity.
  - rewrite (bind_ok _ _ _ _ _ (isComparable_object w l2 h)).
    destruct (strict_eq (field_of h l2 "compareTo") VNull); [|discriminate].
    reflexivity.
Qed.


End MoreNatural.

(** * Further properties of comparator-builder.ts *)

Section MoreBuilder.

Variable w : host.

Lemma compare_rest_first_throw pre : forall z e post o1 o2 h0 h1 h2 ex,
  SFeqb z (num 0) = true ->
  all_zero w pre o1 o2 h0 = Some h1 ->
  _compareKeyValue w o1 o2 e h1 = (Throw ex, h2) ->
  compare_rest w (VNumber z) (pre ++ e :: post) o1 o2 h0 = (Throw ex, h2).
Proof.
  induction pre as [|x pre IH]; intros z e post o1 o2 h0 h1 h2 ex Hz Hpre He.
  - injection Hpre as <-. cbn [app compare_rest].
    rewrite (bind_ok _ _ _ _ _ (loose_eq_number w z (num 0) h0)), Hz.
    cbn [negb]. now rewrite (bind_throw _ _ _ _ _ He).
  - cbn [all_zero] in Hpre.
    destruct (_compareKeyValue w o1 o2 x h0) as [[[| | |z'| | |]|] h0'] eqn:Ex;
      try discriminate.
    destruct (SFeqb z' (num 0)) eqn:Hz'; [|discriminate].
    cbn [app compare_rest].
    rewrite (bind_ok _ _ _ _ _ (loose_eq_number w z (num 0) h0)), Hz.
    cbn [negb]. rewrite (bind_ok _ _ _ _ _ Ex).
    now apply (IH z' e post o1 o2 h0' h1 h2 ex).
Qed.

(** X8 (no entry decides). When every entry of the chain returns 0,
    [compare] runs all of them, in order, and returns a number equal to 0
    in the heap the last entry left. *)
Theorem compare_no_entry_decides chain o1 o2 h0 h1 :
  all_zero w chain o1 o2 h0 = Some h1 ->
  exists z, SFeqb z (num 0) = true /\
    builder_compare w chain o1 o2 h0 = (Ok (VNumber z), h1).
Proof. apply compare_all_zero. Qed.

(** X9 (exceptions). When the entries before [e] have returned 0 and [e]
    throws, [compare] throws the same exception in the heap [e] left; the
    entries after [e] are not run. *)
Theorem compare_stops_at_exception pre e post o1 o2 h0 h1 h2 ex :
  all_zero w pre o1 o2 h0 = Some h1 ->
  _compareKeyValue w o1 o2 e h1 = (Throw ex, h2) ->
  builder_compare w (pre ++ e :: post) o1 o2 h0 = (Throw ex, h2).
Proof.
  intros Hpre He. destruct pre as [|x pre].
  - injection Hpre as <-. cbn [app length builder_compare Nat.ltb Nat.leb].
    now rewrite (bind_throw _ _ _ _ _ He).
  - cbn [all_zero] in Hpre.
    destruct (_compareKeyValue w o1 o2 x h0) as [[[| | |z| | |]|] h0'] eqn:Ex;
      try discriminate.
    destruct (SFeqb z (num 0)) eqn:Hz; [|discriminate].
    cbn [app length builder_compare Nat.ltb Nat.leb].
    rewrite (bind_ok _ _ _ _ _ Ex).
    now apply (compare_rest_first_throw pre z e post o1 o2 h0' h1 h2 ex).
Qed.



Lemma is_field_name_get prop : is_field_name prop = true -> get prop = Field prop.
Proof.
  unfold is_field_name, get.
  repeat (destruct (String.eqb prop _); [discriminate|]). reflexivity.
Qed.

(** X11 (field operations in call order). A run of field operations never
    throws and never touches the heap, whatever the arguments; it appends
    one entry per call, in call order, each holding the field name and the
    argument of its call. *)
Theorem session_of_field_operations calls : forall chain h,
  forallb (fun call => is_field_name (fst call)) calls = true ->
  session w calls chain h = (Ok (chain ++ map entry_of calls)%list, h).
Proof.
  induction calls as [|call calls IH]; intros chain h H.
  - cbn. now rewrite app_nil_r.
  - cbn [forallb] in H. apply andb_prop in H as [H1 H2].
    cbn [session map]. rewrite (is_field_name_get _ H1).
    cbn [call_member]. unfold bind at 1. cbn [ret snd].
    rewrite IH by exact H2. now rewrite <- app_assoc.
Qed.

(* the four structural names always select the structural member; every
   other name selects the field operation of that name *)
Lemma get_selects_field prop p :
  get prop = Field p <->
  p = prop /\ prop <> "getComparatorChain" /\ prop <> "compare" /\
  prop <> "reversed" /\ prop <> "thenComparing".
Proof.
  unfold get. split.
  - destruct (String.eqb prop "getComparatorChain") eqn:E1; [discriminate|].
    destruct (String.eqb prop "compare") eqn:E2; [discriminate|].
    destruct (String.eqb prop "reversed") eqn:E3; [discriminate|].
    destruct (String.eqb prop "thenComparing") eqn:E4; [discriminate|].
    intros [= <-]. apply String.eqb_neq in E1, E2, E3, E4. auto.
  - intros (-> & H1 & H2 & H3 & H4).
    apply String.eqb_neq in H1, H2, H3, H4. now rewrite H1, H2, H3, H4.
Qed.

(** X12 (thenComparing without a comparator). [thenComparing] reads the
    [compare] member of its argument at once: called with [null], with
    [undefined] or with no argument it throws a TypeError, and the heap is
    as it was. *)
Theorem thenComparing_nullish_throws args chain h :
  is_nullish (arg 0 args) = true ->
  exists msg,
    call_member w (get "thenComparing") args chain h = (Throw (TypeError msg), h).
Proof.
  intros H. cbn [get String.eqb Ascii.eqb Bool.eqb call_member].
  change (call_member w (get "thenComparing") args chain h)
    with (call_member w ThenComparing args chain h).
  cbn [call_member]. destruct (arg 0 args); try discriminate; cbn; eauto.
Qed.

Lemma isComparator_object l h :
  isComparator w (VObject l) h
    = (Ok (negb (is_nullish (field_of h l "compare"))), h).
Proof.
  unfold isComparator.
  cbn [truthy negb typeof String.eqb Ascii.eqb Bool.eqb Get bind].
  now rewrite (bind_ok _ _ _ _ _ (loose_eq_nullish_r w _ VNull h eq_refl)).
Qed.

Lemma field_compare_comparator l o1 o2 h :
  is_nullish (field_of h l "compare") = false ->
  field_compare w (VObject l) o1 o2 h
    = Call w (field_of h l "compare") (VObject l) [o1; o2] h.
Proof.
  intros N. unfold field_compare.
  cbn [truthy negb typeof String.eqb Ascii.eqb Bool.eqb].
  rewrite (bind_ok _ _ _ _ _ (isComparator_object l h)), N. reflexivity.
Qed.

(** X13 (method receiver). A comparator object handed to [thenComparing]
    has its [compare] method taken off it when the entry is made and called
    later on the whole records with [this] undefined; handed to a field
    operation, the method is looked up when the entry runs and called on
    the object, with [this] the comparator. *)
Theorem comparator_receiver l f prop chain o1 o2 h :
  field_of h l "compare" = VFunction f ->
  call_member w (get "thenComparing") [VObject l] chain h
    = (Ok (RBuilder, (chain ++ [by_function f])%list), h) /\
  _compareKeyValue w o1 o2 (by_function f) h
    = lift (invoke w f VUndefined [o1; o2]) h /\
  apply_compare w (compare (by_field prop (VObject l))) o1 o2 h
    = lift (invoke w f (VObject l) [o1; o2]) h.
Proof.
  intros H. repeat split.
  - change (get "thenComparing") with ThenComparing.
    cbn [call_member arg nth Get bind]. now rewrite H.
  - cbn [by_field compare apply_compare].
    rewrite field_compare_comparator by now rewrite H.
    now rewrite H.
Qed.

(** X14 (function argument). A chain of one field entry made with a
    function calls that function, with [this] undefined, on the two
    projected values; [NaturalOrder] is not involved. *)
Theorem single_field_entry_with_function prop f o1 o2 h :
  call_member w (Field prop) [VFunction f] [] h
    = (Ok (RBuilder, [by_field prop (VFunction f)]), h) /\
  builder_compare w [by_field prop (VFunction f)] o1 o2 h
    = (let* a := Get w o1 prop in
       let* b := Get w o2 prop in
       lift (invoke w f VUndefined [a; b])) h.
Proof.
  split; [reflexivity|].
  cbn [builder_compare length Nat.ltb Nat.leb compare_rest].
  rewrite bind_ret_r. reflexivity.
Qed.


(** X16 (compare member that is not a function). An object whose
    [compare] member is neither [null], [undefined] nor a function passes
    the comparator guard; a field entry made with it throws a TypeError,
    not the usage error, each time it runs. *)
Theorem field_entry_with_uncallable_compare prop l o1 o2 h :
  is_nullish (field_of h l "compare") = false ->
  String.eqb (typeof (field_of h l "compare")) "function" = false ->
  isComparator w (VObject l) h = (Ok true, h) /\
  apply_compare w (compare (by_field prop (VObject l))) o1 o2 h
    = (Throw (TypeError "not a function"), h).
Proof.
  intros N F. split.
  - now rewrite isComparator_object, N.
  - cbn [by_field compare apply_compare].
    rewrite field_compare_comparator by exact N.
    destruct (field_of h l "compare") eqn:E; try reflexivity.
    discriminate.
Qed.

Lemma number_field_inv h l p x :
  number_field h l p = Some x -> field_of h l p = VNumber x /\ is_nan x = false.
Proof.
  unfold number_field. destruct (field_of h l p); try discriminate.
  destruct (is_nan n) eqn:E; [discriminate|]. now intros [= <-].
Qed.

Lemma SFcompare_some x y :
  is_nan x = false -> is_nan y = false -> exists c, SFcompare x y = Some c.
Proof.
  destruct x, y; try discriminate; intros _ _; cbn; eauto.
Qed.

(* a natural-order entry on two numeric fields gives their order *)
Lemma natural_entry_on_numbers p l1 l2 h x y :
  number_field h l1 p = Some x -> number_field h l2 p = Some y ->
  exists c, SFcompare x y = Some c /\
    _compareKeyValue w (VObject l1) (VObject l2) (by_field p VUndefined) h
      = (Ok (order_value c), h).
Proof.
  intros [F1 N1]%number_field_inv [F2 N2]%number_field_inv.
  destruct (SFcompare_some x y N1 N2) as [c Hc]. exists c. split; [exact Hc|].
  unfold _compareKeyValue.
  cbn [by_field compareProp compare Get bind apply_compare].
  rewrite F1, F2, field_compare_omitted.
  rewrite NaturalOrder_scalar by reflexivity. cbn [ToNumber].
  unfold SFeqb, SFltb, order_value. rewrite Hc. destruct c; reflexivity.
Qed.

Lemma order_value_nonzero c rest o1 o2 h :
  c <> Eq ->
  compare_rest w (order_value c) rest o1 o2 h = (Ok (order_value c), h).
Proof.
  intros H. unfold order_value.
  destruct c; [contradiction| |]; now apply compare_rest_nonzero.
Qed.

Lemma compare_rest_lexicographic props : forall c h l1 l2,
  lexicographic h l1 l2 props = Some c ->
  compare_rest w (order_value Eq) (natural_chain props) (VObject l1) (VObject l2) h
    = (Ok (order_value c), h).
Proof.
  induction props as [|p props IH]; intros c h l1 l2 L.
  - injection L as <-. reflexivity.
  - cbn [lexicographic] in L.
    destruct (number_field h l1 p) as [x|] eqn:F1; [|discriminate].
    destruct (number_field h l2 p) as [y|] eqn:F2; [|discriminate].
    destruct (natural_entry_on_numbers p l1 l2 h x y F1 F2) as (c0 & Hc & E).
    rewrite Hc in L. cbn [natural_chain map compare_rest].
    unfold order_value at 1.
    rewrite (bind_ok _ _ _ _ _ (loose_eq_number w (num 0) (num 0) h)).
    cbn [negb]. change (SFeqb (num 0) (num 0)) with true. cbn [negb].
    rewrite (bind_ok _ _ _ _ _ E).
    destruct c0.
    + now apply IH.
    + injection L as <-. now apply order_value_nonzero.
    + injection L as <-. now apply order_value_nonzero.
Qed.

Lemma natural_chain_compare props c h l1 l2 :
  lexicographic h l1 l2 props = Some c ->
  builder_compare w (natural_chain props) (VObject l1) (VObject l2) h
    = (Ok (order_value c), h).
Proof.
  destruct props as [|p props]; intros L.
  - injection L as <-. reflexivity.
  - cbn [lexicographic] in L.
    destruct (number_field h l1 p) as [x|] eqn:F1; [|discriminate].
    destruct (number_field h l2 p) as [y|] eqn:F2; [|discriminate].
    destruct (natural_entry_on_numbers p l1 l2 h x y F1 F2) as (c0 & Hc & E).
    rewrite Hc in L.
    cbn [natural_chain map length builder_compare Nat.ltb Nat.leb].
    rewrite (bind_ok _ _ _ _ _ E).
    destruct c0.
    + now apply compare_rest_lexicographic.
    + injection L as <-. now apply order_value_nonzero.
    + injection L as <-. now apply order_value_nonzero.
Qed.

Lemma lexicographic_swap props : forall c h l1 l2,
  lexicographic h l1 l2 props = Some c ->
  lexicographic h l2 l1 props = Some (CompOpp c).
Proof.
  induction props as [|p props IH]; intros c h l1 l2 L.
  - injection L as <-. reflexivity.
  - cbn [lexicographic] in *.
    destruct (number_field h l1 p) as [x|]; [|discriminate].
    destruct (number_field h l2 p) as [y|]; [|discriminate].
    rewrite (SFcompare_antisym x y).
    destruct (SFcompare x y) as [[]|]; try discriminate; cbn.
    + now apply IH.
    + now injection L as <-.
    + now injection L as <-.
Qed.

(** X17 (lexicographic order). On two records whose named fields hold
    numbers other than NaN, a chain of field operations without arguments
    compares lexicographically: the result is -1, 0 or 1 as the first field
    on which the records differ orders them, and 0 when none does. Nothing
    is thrown and the heap is left alone. *)
Theorem compare_is_lexicographic props c h l1 l2 :
  lexicographic h l1 l2 props = Some c ->
  builder_compare w (natural_chain props) (VObject l1) (VObject l2) h
    = (Ok (order_value c), h).
Proof. apply natural_chain_compare. Qed.

(** X18 (reversed order). On such records and such a chain, the
    comparator of [reversed()] returns the opposite of what [compare]
    returns, and so does [compare] with its arguments exchanged. *)
Theorem reversed_is_opposite props c h l1 l2 :
  lexicographic h l1 l2 props = Some c ->
  reversed_compare w (natural_chain props) (VObject l1) (VObject l2) h
    = (Ok (order_value (CompOpp c)), h) /\
  builder_compare w (natural_chain props) (VObject l2) (VObject l1) h
    = (Ok (order_value (CompOpp c)), h).
Proof.
  intros L. apply lexicographic_swap in L. unfold reversed_compare.
  split; now apply natural_chain_compare.
Qed.

End MoreBuilder.

(** * Properties of utils.ts *)

Section UtilsProperties.

Variable w : host.

(* rejected elements are passed over, and the search goes on in the heap
   their tests left *)
Lemma find_skips_rejected predicate pre : forall rest h0 h1,
  all_rejected w None predicate pre h0 = Some h1 ->
  find w (Items (pre ++ rest)) predicate h0 = find w (Items rest) predicate h1.
Proof.
  induction pre as [|t pre IH]; intros rest h0 h1 H.
  - now injection H as <-.
  - cbn [all_rejected] in H. unfold bind, ret in H.
    destruct (Call w predicate VUndefined [t] h0) as [[p|e] h'] eqn:E;
      [|discriminate].
    destruct (truthy p) eqn:T; [discriminate|].
    rewrite <- (IH rest h' h1 H).
    unfold find. cbn [app for_of for_items]. unfold bind at 1 2 3.
    rewrite E. cbn [ret]. rewrite T. reflexivity.
Qed.

Lemma find_mapped_skips_rejected fn predicate pre : forall rest h0 h1,
  all_rejected w (Some fn) predicate pre h0 = Some h1 ->
  find w (mapLazy (Items (pre ++ rest)) fn) predicate h0
    = find w (mapLazy (Items rest) fn) predicate h1.
Proof.
  induction pre as [|t pre IH]; intros rest h0 h1 H.
  - now injection H as <-.
  - cbn [all_rejected] in H. unfold bind in H.
    destruct (Call w fn VUndefined [t] h0) as [[v|e] h'] eqn:E; [|discriminate].
    destruct (Call w predicate VUndefined [v] h') as [[p|e] h''] eqn:E';
      [|discriminate].
    destruct (truthy p) eqn:T; [discriminate|].
    rewrite <- (IH rest h'' h1 H).
    unfold find, mapLazy. cbn [app for_of for_items]. unfold bind at 1 2 3 4.
    rewrite E, E'. cbn [ret]. rewrite T. reflexivity.
Qed.

(** X19 (find, first match). [find] returns the first element its
    predicate accepts, in the heap that test left: the predicate is called
    on the elements in order and never on an element after the match. *)
Theorem find_first_match predicate pre x post h0 h1 h2 p :
  all_rejected w None predicate pre h0 = Some h1 ->
  Call w predicate VUndefined [x] h1 = (Ok p, h2) ->
  truthy p = true ->
  find w (Items (pre ++ x :: post)) predicate h0 = (Ok x, h2).
Proof.
  intros H E T. rewrite (find_skips_rejected predicate pre _ h0 h1 H).
  unfold find. cbn [for_of for_items]. unfold bind at 1 2 3.
  rewrite E. cbn [ret]. now rewrite T.
Qed.

(** X20 (find, no match). When the predicate rejects every element,
    [find] has called it on all of them and returns [undefined]; on an
    empty array it returns [undefined] without calling anything. *)
Theorem find_no_match predicate xs h0 h1 :
  all_rejected w None predicate xs h0 = Some h1 ->
  find w (Items xs) predicate h0 = (Ok VUndefined, h1).
Proof.
  intros H. rewrite <- (app_nil_r xs).
  now rewrite (find_skips_rejected predicate xs [] h0 h1 H).
Qed.

(** X21 (find over mapLazy). Searching a lazily mapped array applies the
    mapping function to one element at a time, just before the predicate
    sees the mapped value; the search returns the first mapped value the
    predicate accepts, and the mapping function is never applied to the
    elements after it. *)
Theorem find_mapLazy_first_match fn predicate pre x post h0 h1 h2 h3 y p :
  all_rejected w (Some fn) predicate pre h0 = Some h1 ->
  Call w fn VUndefined [x] h1 = (Ok y, h2) ->
  Call w predicate VUndefined [y] h2 = (Ok p, h3) ->
  truthy p = true ->
  find w (mapLazy (Items (pre ++ x :: post)) fn) predicate h0 = (Ok y, h3).
Proof.
  intros H E E' T.
  rewrite (find_mapped_skips_rejected fn predicate pre _ h0 h1 H).
  unfold find, mapLazy. cbn [for_of for_items]. unfold bind at 1 2 3 4.
  rewrite E, E'. cbn [ret]. now rewrite T.
Qed.

(** X22 (mapLazy of mapLazy). Mapping lazily twice applies the two
    functions to each element in turn, the inner one first, before the
    next element is touched: a search over the result stops both. *)
Theorem find_mapLazy_twice f g predicate x post h0 h1 h2 h3 y z p :
  Call w f VUndefined [x] h0 = (Ok y, h1) ->
  Call w g VUndefined [y] h1 = (Ok z, h2) ->
  Call w predicate VUndefined [z] h2 = (Ok p, h3) ->
  truthy p = true ->
  find w (mapLazy (mapLazy (Items (x :: post)) f) g) predicate h0 = (Ok z, h3).
Proof.
  intros E1 E2 E3 T. unfold find, mapLazy. cbn [for_of for_items].
  unfold bind at 1 2 3 4 5. rewrite E1, E2, E3. cbn [ret]. now rewrite T.
Qed.

(** ** Object.is and the two set tests *)

Lemma same_number_eq x y : same_number x y = true <-> x = y.
Proof.
  split.
  - destruct x as [[]|[]| |[] m e], y as [[]|[]| |[] m' e']; cbn;
      try discriminate; try reflexivity.
    all: unfold SFeqb; cbn [SFcompare];
      destruct (e ?= e')%Z eqn:Ee; try discriminate;
      destruct (Pos.compare_cont Eq m m') eqn:Em; try discriminate;
      intros _; apply Z.compare_eq in Ee;
      apply (Pos.compare_eq m m') in Em; now subst.
  - intros <-. destruct x as [s|s| |s m e]; cbn; try reflexivity.
    + now destruct s.
    + now destruct s.
    + now apply (SFeqb_refl (S754_finite s m e)).
Qed.

(* Object.is holds of two values exactly when they are the same value *)
Lemma same_value_eq a b : same_value a b = true <-> a = b.
Proof.
  destruct a, b; cbn; try (split; [discriminate | intros [=]]);
    try (split; reflexivity).
  - rewrite Bool.eqb_true_iff. split; [now intros -> | now intros [=]].
  - rewrite same_number_eq. split; [now intros -> | now intros [=]].
  - rewrite String.eqb_eq. split; [now intros -> | now intros [=]].
  - rewrite Pos.eqb_eq. split; [now intros -> | now intros [=]].
  - rewrite Pos.eqb_eq. split; [now intros -> | now intros [=]].
Qed.

Lemma shared_In c2 x : shared c2 x = true <-> In x c2.
Proof.
  unfold shared. rewrite existsb_exists. split.
  - intros (y & Hy & E). apply same_value_eq in E. now subst.
  - intros H. exists x. split; [exact H | now apply same_value_eq].
Qed.

(* with the default matcher the inner loop is a membership test *)
Lemma matches_some_default c2 x h :
  matches_some w c2 VUndefined x h = (Ok (VBool (shared c2 x)), h).
Proof.
  unfold matches_some.
  assert (E : some c2 (fun c2Elem => match_with w VUndefined x c2Elem) h
              = (Ok (shared c2 x), h)).
  { unfold shared. induction c2 as [|y c2 IH]; [reflexivity|].
    cbn [some existsb match_with bind ret truthy].
    destruct (same_value x y); [reflexivity | exact IH]. }
  now rewrite (bind_ok _ _ _ _ _ E).
Qed.

Lemma isSubset_default c1 c2 h :
  isSubset w c1 c2 VUndefined h = (Ok (forallb (shared c2) c1), h).
Proof.
  unfold isSubset. induction c1 as [|x c1 IH]; [reflexivity|].
  cbn [every forallb].
  rewrite (bind_ok _ _ _ _ _ (matches_some_default c2 x h)). cbn [truthy].
  destruct (shared c2 x); [exact IH | reflexivity].
Qed.

(** X23 (isSubset). With the default matcher [isSubset] changes nothing,
    throws nothing and answers true exactly when every element of the
    first array occurs in the second, elements being identified as
    [Object.is] does (NaN is found, +0 and -0 are different). *)
Theorem isSubset_is_inclusion c1 c2 h :
  exists b, isSubset w c1 c2 VUndefined h = (Ok b, h) /\
    (b = true <-> forall x, In x c1 -> In x c2).
Proof.
  exists (forallb (shared c2) c1). split; [apply isSubset_default|].
  rewrite forallb_forall. split; intros H x Hx.
  - apply shared_In. now apply H.
  - apply shared_In. now apply H.
Qed.

Lemma array_find_default c1 c2 h :
  array_find c1 (matches_some w c2 VUndefined) h
    = (Ok (default VUndefined (List.find (shared c2) c1)), h).
Proof.
  induction c1 as [|x c1 IH]; [reflexivity|].
  cbn [array_find List.find].
  rewrite (bind_ok _ _ _ _ _ (matches_some_default c2 x h)). cbn [truthy].
  destruct (shared c2 x); [reflexivity | exact IH].
Qed.

(** X24 (isDisjoint). With the default matcher, for a first array that
    does not contain [undefined], [isDisjoint] changes nothing, throws
    nothing and answers true exactly when no element of the first array
    occurs in the second. *)
Theorem isDisjoint_no_common_element c1 c2 h :
  shared c1 VUndefined = false ->
  exists b, isDisjoint w c1 c2 VUndefined h = (Ok b, h) /\
    (b = true <-> forall x, In x c1 -> ~ In x c2).
Proof.
  intros U. unfold isDisjoint.
  assert (U' : ~ In VUndefined c1)
    by (intros I; apply shared_In in I; rewrite I in U; discriminate).
  rewrite (bind_ok _ _ _ _ _ (array_find_default c1 c2 h)).
  eexists. split; [reflexivity|].
  destruct (List.find (shared c2) c1) as [x|] eqn:F; cbn [default].
  - apply find_some in F as [Hx Hs]. apply shared_In in Hs. split.
    + intros E. destruct x; try discriminate. contradiction.
    + intros H. exfalso. exact (H x Hx Hs).
  - split; [|reflexivity]. intros _ x Hx Hs.
    apply shared_In in Hs. now rewrite (find_none _ _ F x Hx) in Hs.
Qed.

(** X25 (isDisjoint and undefined). When the first element the two arrays
    share is [undefined], [isDisjoint] answers true, whatever else they
    share: the search result [undefined] is read as nothing found. *)
Theorem isDisjoint_shared_undefined pre post c2 h :
  existsb (shared c2) pre = false ->
  shared c2 VUndefined = true ->
  isDisjoint w (pre ++ VUndefined :: post) c2 VUndefined h = (Ok true, h).
Proof.
  intros P U. unfold isDisjoint.
  rewrite (bind_ok _ _ _ _ _ (array_find_default _ c2 h)).
  assert (F : List.find (shared c2) (pre ++ VUndefined :: post) = Some VUndefined).
  { induction pre as [|x pre IH]; cbn [app List.find].
    - now rewrite U.
    - cbn [existsb] in P. apply orb_false_elim in P as [S P].
      rewrite S. now apply IH. }
  now rewrite F.
Qed.

(** X26 (empty second array). Against an empty second array the matcher
    is never called, whatever it is: every array is disjoint from the
    empty array, and only the empty array is a subset of it. *)
Theorem set_tests_on_empty c1 matcher h :
  isDisjoint w c1 [] matcher h = (Ok true, h) /\
  isSubset w c1 [] matcher h = (Ok (if c1 is [] then true else false), h).
Proof.
  split.
  - unfold isDisjoint.
    assert (E : array_find c1 (matches_some w [] matcher) h = (Ok VUndefined, h)).
    { induction c1 as [|x c1 IH]; [reflexivity | exact IH]. }
    now rewrite (bind_ok _ _ _ _ _ E).
  - destruct c1; reflexivity.
Qed.

End UtilsProperties.

(** ** keysOf *)

Lemma append_cons c s t : String c s ++ t = String c (s ++ t).
Proof. reflexivity. Qed.

Lemma append_nil s : EmptyString ++ s = s.
Proof. reflexivity. Qed.

Lemma skip_digits_split r :
  exists ds, r = ds ++ skip_digits r /\ all_digits ds = true.
Proof.
  induction r as [|c r (ds & E & D)].
  - exists EmptyString. split; reflexivity.
  - cbn [skip_digits]. destruct (is_digit c) eqn:C.
    + exists (String c ds). split.
      * rewrite append_cons. now rewrite <- E.
      * cbn [all_digits]. now rewrite C, D.
    + exists EmptyString. split; reflexivity.
Qed.

Lemma skip_digits_app ds frac :
  all_digits ds = true ->
  frac = EmptyString \/ (exists f, frac = String "." f) ->
  skip_digits (ds ++ frac) = frac.
Proof.
  intros D F. induction ds as [|c ds IH]; cbn [all_digits] in D.
  - rewrite append_nil. destruct F as [->|(f & ->)]; reflexivity.
  - apply andb_prop in D as [C D]. rewrite append_cons. cbn [skip_digits].
    rewrite C. now apply IH.
Qed.

(* the part of the pattern after the sign: [\d+\.?\d*$] *)
Lemma unsigned_decimal c r :
  is_digit c
    && match skip_digits r with
       | EmptyString => true
       | String d f => Ascii.eqb d "." && all_digits f
       end = true <->
  exists ds frac,
    r = ds ++ frac /\ is_digit c = true /\ all_digits ds = true /\
    (frac = EmptyString \/ exists f, frac = String "." f /\ all_digits f = true).
Proof.
  split.
  - intros [C T]%andb_prop. destruct (skip_digits_split r) as (ds & E & D).
    exists ds, (skip_digits r). repeat split; try assumption.
    destruct (skip_digits r) as [|d f]; [now left|].
    apply andb_prop in T as [Ed Df]. apply Ascii.eqb_eq in Ed. subst d.
    right. now exists f.
  - intros (ds & frac & -> & C & D & F). rewrite C. cbn [andb].
    rewrite skip_digits_app; [|exact D|].
    + destruct F as [->|(f & -> & Df)]; [reflexivity|].
      now rewrite Ascii.eqb_refl, Df.
    + destruct F as [->|(f & -> & _)]; [now left | right; now exists f].
Qed.

Lemma _isNumber_test_decimal s : _isNumber_test s = true <-> decimal s.
Proof.
  unfold _isNumber_test, decimal. split.
  - destruct s as [|c r]; [discriminate|].
    destruct (Ascii.eqb c "-") eqn:Ec.
    + apply Ascii.eqb_eq in Ec. subst c.
      destruct r as [|c r]; [discriminate|].
      intros (ds & frac & -> & C & D & F)%unsigned_decimal.
      exists "-", (String c ds), frac. cbn [all_digits].
      rewrite C, D. repeat split; auto; discriminate.
    + intros (ds & frac & -> & C & D & F)%unsigned_decimal.
      exists EmptyString, (String c ds), frac. cbn [all_digits].
      rewrite C, D. repeat split; auto; discriminate.
  - intros (sign & int & frac & -> & S & N & D & F).
    destruct int as [|c ds]; [contradiction|].
    cbn [all_digits] in D. apply andb_prop in D as [C D].
    assert (T : is_digit c
                && match skip_digits (ds ++ frac) with
                   | EmptyString => true
                   | String d f => Ascii.eqb d "." && all_digits f
                   end = true).
    { apply unsigned_decimal. exists ds, frac. repeat split; auto. }
    destruct S as [->| ->]; rewrite ?append_nil, ?append_cons.
    + destruct (Ascii.eqb c "-") eqn:Ec; [|exact T].
      apply Ascii.eqb_eq in Ec. subst c. discriminate.
    + rewrite Ascii.eqb_refl. exact T.
Qed.

(** X27 (keysOf). [keysOf] keeps the keys in the order [Object.keys]
    gives them and drops exactly the keys that read as decimal numerals
    (an optional minus sign, digits, and possibly a point and more
    digits), such as the reverse-mapping keys of a numeric enum. *)
Theorem keysOf_drops_numerals keys k :
  (In k (keysOf keys) <-> In k keys /\ ~ decimal k) /\
  keysOf (keysOf keys) = keysOf keys /\
  (forall more, keysOf (keys ++ more) = keysOf keys ++ keysOf more)%list.
Proof.
  unfold keysOf. split; [split|split].
  - intros [I C]%filter_In. split; [exact I|].
    intros D. apply _isNumber_test_decimal in D.
    unfold _containsOnlyNumbers in C. now rewrite D in C.
  - intros [I D]. apply filter_In. split; [exact I|].
    unfold _containsOnlyNumbers. destruct (_isNumber_test k) eqn:T; [|reflexivity].
    exfalso. apply D. now apply _isNumber_test_decimal.
  - induction keys as [|x keys IH]; [reflexivity|]. cbn [List.filter].
    destruct (_containsOnlyNumbers x) eqn:E; cbn [List.filter]; [rewrite E|];
      now rewrite IH.
  - intros more. apply List.filter_app.
Qed.

(** ** Closed instances on the example host *)

Module MoreExamples.

Import Example Fixture.

Lemma NaturalOrder_nulls_first_witness :
  NaturalOrder js VUndefined r1 store = (Ok (VNumber (num (-1))), store).
Proof. apply (NaturalOrder_nulls_first js VUndefined r1 store). reflexivity. Defined.

Lemma NaturalOrder_delegates_witness :
  NaturalOrder js (VObject 5%positive) r1 objects
    = Call js (VFunction 1%positive) (VObject 5%positive) [r1] objects.
Proof.
  apply (NaturalOrder_delegates js 5%positive 1%positive objects);
    [discriminate | vm_compute; reflexivity | vm_compute; reflexivity].
Defined.

Lemma NaturalOrder_null_compareTo_witness :
  NaturalOrder js (VObject 6%positive) r1 objects
    = (let* gt := greater_than js r1 (VObject 6%positive) in
       ret (VNumber (if gt then num (-1) else num 1))) objects.
Proof.
  apply (NaturalOrder_null_compareTo js 6%positive 1%positive objects);
    [discriminate | vm_compute; reflexivity].
Defined.


Lemma compare_no_entry_decides_witness :
  exists z, SFeqb z (num 0) = true /\
    builder_compare js [by_field "foo" VUndefined; by_field "baz" VUndefined]
      r1 r2 store = (Ok (VNumber z), store).
Proof.
  apply (compare_no_entry_decides js
           [by_field "foo" VUndefined; by_field "baz" VUndefined] r1 r2 store store).
  vm_compute. reflexivity.
Defined.

Lemma compare_stops_at_exception_witness :
  builder_compare js
    ([by_field "foo" VUndefined] ++ by_field "bar" (VNumber (num 42))
       :: [by_function 2%positive]) r1 r2 store
  = (Throw (UsageError "Unknown compare operation 42"), store).
Proof.
  apply (compare_stops_at_exception js [by_field "foo" VUndefined]
           (by_field "bar" (VNumber (num 42))) [by_function 2%positive]
           r1 r2 store store store);
    vm_compute; reflexivity.
Defined.


Lemma session_of_field_operations_witness :
  session js [("foo", []); ("bar", [VFunction 3%positive]); ("foo", [VNull])]
    [] store
  = (Ok [by_field "foo" VUndefined; by_field "bar" (VFunction 3%positive);
         by_field "foo" VNull], store).
Proof.
  apply (session_of_field_operations js
           [("foo", []); ("bar", [VFunction 3%positive]); ("foo", [VNull])]
           [] store).
  reflexivity.
Defined.

Lemma thenComparing_nullish_throws_witness :
  exists msg,
    call_member js (get "thenComparing") [] [by_field "foo" VUndefined] store
      = (Throw (TypeError msg), store).
Proof.
  apply (thenComparing_nullish_throws js [] [by_field "foo" VUndefined] store).
  reflexivity.
Defined.

Lemma comparator_receiver_witness :
  call_member js (get "thenComparing") [VObject 5%positive] [] objects
    = (Ok (RBuilder, ([] ++ [by_function 3%positive])%list), objects) /\
  _compareKeyValue js r1 r2 (by_function 3%positive) objects
    = lift (invoke js 3%positive VUndefined [r1; r2]) objects /\
  apply_compare js (compare (by_field "bar" (VObject 5%positive))) r1 r2 objects
    = lift (invoke js 3%positive (VObject 5%positive) [r1; r2]) objects.
Proof.
  apply (comparator_receiver js 5%positive 3%positive "bar" [] r1 r2 objects).
  vm_compute. reflexivity.
Defined.


Lemma field_entry_with_uncallable_compare_witness :
  isComparator js (VObject 7%positive) objects = (Ok true, objects) /\
  apply_compare js (compare (by_field "foo" (VObject 7%positive))) r1 r2 objects
    = (Throw (TypeError "not a function"), objects).
Proof.
  apply (field_entry_with_uncallable_compare js "foo" 7%positive r1 r2 objects);
    vm_compute; reflexivity.
Defined.

Lemma compare_is_lexicographic_witness :
  builder_compare js (natural_chain ["foo"; "bar"])
    (VObject 8%positive) (VObject 10%positive) objects
  = (Ok (order_value Lt), objects).
Proof.
  apply (compare_is_lexicographic js ["foo"; "bar"] Lt objects 8%positive 10%positive).
  vm_compute. reflexivity.
Defined.

Lemma reversed_is_opposite_witness :
  reversed_compare js (natural_chain ["foo"; "bar"])
    (VObject 8%positive) (VObject 10%positive) objects
  = (Ok (order_value (CompOpp Lt)), objects) /\
  builder_compare js (natural_chain ["foo"; "bar"])
    (VObject 10%positive) (VObject 8%positive) objects
  = (Ok (order_value (CompOpp Lt)), objects).
Proof.
  apply (reversed_is_opposite js ["foo"; "bar"] Lt objects 8%positive 10%positive).
  vm_compute. reflexivity.
Defined.

Lemma find_first_match_witness :
  find tools (Items (numbers [1; 2]%Z ++ VNumber (num 3) :: numbers [4]%Z))
    (VFunction 1%positive) store
  = (Ok (VNumber (num 3)), store).
Proof.
  apply (find_first_match tools (VFunction 1%positive) (numbers [1; 2]%Z)
           (VNumber (num 3)) (numbers [4]%Z) store store store (VBool true));
    vm_compute; reflexivity.
Defined.

Lemma find_no_match_witness :
  find tools (Items (numbers [1; 2; 0]%Z)) (VFunction 1%positive) store
  = (Ok VUndefined, store).
Proof.
  apply (find_no_match tools (VFunction 1%positive) (numbers [1; 2; 0]%Z) store store).
  vm_compute. reflexivity.
Defined.

Lemma find_mapLazy_first_match_witness :
  find tools
    (mapLazy (Items (numbers [0; 1]%Z ++ VNumber (num 2) :: numbers [3; 4]%Z))
       (VFunction 2%positive))
    (VFunction 1%positive) store
  = (Ok (VNumber (num 3)), counted 3).
Proof.
  apply (find_mapLazy_first_match tools (VFunction 2%positive) (VFunction 1%positive)
           (numbers [0; 1]%Z) (VNumber (num 2)) (numbers [3; 4]%Z)
           store (counted 2) (counted 3) (counted 3)
           (VNumber (num 3)) (VBool true));
    vm_compute; reflexivity.
Defined.

Lemma find_mapLazy_twice_witness :
  find tools
    (mapLazy (mapLazy (Items (VNumber (num 1) :: numbers [5; 6]%Z))
                (VFunction 2%positive)) (VFunction 2%positive))
    (VFunction 1%positive) store
  = (Ok (VNumber (num 3)), counted 2).
Proof.
  apply (find_mapLazy_twice tools (VFunction 2%positive) (VFunction 2%positive)
           (VFunction 1%positive) (VNumber (num 1)) (numbers [5; 6]%Z)
           store (counted 1) (counted 2) (counted 2)
           (VNumber (num 2)) (VNumber (num 3)) (VBool true));
    vm_compute; reflexivity.
Defined.

Lemma isDisjoint_no_common_element_witness :
  exists b,
    isDisjoint tools (numbers [1; 2]%Z) (numbers [3; 2]%Z) VUndefined store
      = (Ok b, store) /\
    (b = true <->
     forall x, In x (numbers [1; 2]%Z) -> ~ In x (numbers [3; 2]%Z)).
Proof.
  apply (isDisjoint_no_common_element tools (numbers [1; 2]%Z) (numbers [3; 2]%Z) store).
  vm_compute. reflexivity.
Defined.

Lemma isDisjoint_shared_undefined_witness :
  isDisjoint tools (numbers [1]%Z ++ VUndefined :: numbers [2]%Z)
    (VUndefined :: numbers [2]%Z) VUndefined store
  = (Ok true, store).
Proof.
  apply (isDisjoint_shared_undefined tools (numbers [1]%Z) (numbers [2]%Z)
           (VUndefined :: numbers [2]%Z) store);
    vm_compute; reflexivity.
Defined.

End MoreExamples.
